(** * COLOSSUS Editor: save-time fixes, search/replace and the file monitor

    A shallow embedding of the parts of [editor.cpp] that carry the editor's
    logic: [rtrim_copy] and [Editor::apply_save_fixes], the search helpers
    [Editor::search_find_next], [Editor::search_replace_one] and
    [Editor::search_replace_all], and the file-monitor protocol around
    [Editor::s_on_file_monitor_changed], [Editor::open_file_from_path],
    [Editor::install_file_monitor] and [Editor::save_file].

    Conventions.
    - A [std::string] is a list of bytes ([list ascii]).
    - The text of the [GtkTextBuffer] is a list of Unicode code points
      ([gunichar], modelled as [N]); iterators are character offsets.
    - [guint64] values are [N], reduced modulo [2^64] where the source
      computes with them.
    - The toolkit (GTK, GtkSourceView, GIO) is not part of the repository.
      Its functions are modelled after their reference documentation and keep
      their C names; what the file system, the monitor and the user answer is
      collected in a record [World] that the operations read. *)

From Stdlib Require Import Ascii String List Bool Arith NArith ZArith Lia.
From Stdlib Require Import Sorted DecimalString DecimalZ.
Import ListNotations.

Set Implicit Arguments.

(** ** Bytes and [std::string] *)

Definition std_string := list ascii.

Definition nl : ascii := "010"%char.
Definition tab : ascii := "009"%char.

(** A literal without control characters, as a [std::string]. *)
Definition lit (s : string) : std_string := list_ascii_of_string s.

(** [is_space_char(c)] is [std::isspace(c) != 0], taken in the C locale:
    space and the control characters [\t \n \v \f \r] (codes 9 to 13). *)
Definition is_space_char (c : ascii) : bool :=
  let n := N_of_ascii c in
  ((9 <=? n) && (n <=? 13) || (n =? 32))%N.

(** [s.pop_back()] on a non-empty string; the source never calls it on an
    empty one. *)
Definition pop_back (s : std_string) : std_string := removelast s.

(** [s.back()], when [s] is not empty. *)
Definition back (s : std_string) : option ascii :=
  match rev s with
  | [] => None
  | c :: _ => Some c
  end.

(** The loop of [rtrim_copy]:
    [while (!s.empty() && is_space_char(s.back())) s.pop_back();]
    Every turn removes one byte, so [length s] turns are enough. *)
Fixpoint rtrim_loop (fuel : nat) (s : std_string) : std_string :=
  match fuel with
  | O => s
  | S fuel' =>
      match back s with
      | Some c => if is_space_char c then rtrim_loop fuel' (pop_back s) else s
      | None => s
      end
  end.

Definition rtrim_copy (s : std_string) : std_string :=
  rtrim_loop (length s) s.

(** ** [std::getline] on a [std::stringstream]

    The stream is the list of bytes not yet read.  [std::getline(in, line)]
    fails (the loop condition is false) when no byte is left; otherwise it
    reads up to the next ['\n'], which it consumes and does not store, or up
    to the end of the stream. *)
Fixpoint read_line (s : std_string) : std_string * std_string :=
  match s with
  | [] => ([], [])
  | c :: rest =>
      if Ascii.eqb c nl then ([], rest)
      else let '(line, rest') := read_line rest in (c :: line, rest')
  end.

Definition getline (in_ : std_string) : option (std_string * std_string) :=
  match in_ with
  | [] => None
  | _ :: _ => Some (read_line in_)
  end.

(** ** [Editor::apply_save_fixes] *)

(** The [while (std::getline(in, line))] loop of the trim branch, with its
    locals [out] and [first].  [None] means that [fuel] turns did not reach
    the end of the stream. *)
Fixpoint trim_loop (fuel : nat) (in_ out : std_string) (first : bool)
  : option std_string :=
  match fuel with
  | O => None
  | S fuel' =>
      match getline in_ with
      | None => Some out
      | Some (line, in') =>
          let out1 := if first then out else out ++ [nl] in
          trim_loop fuel' in' (out1 ++ rtrim_copy line) false
      end
  end.

(** The body of [if (trim_ws_on_save_) { ... }]: every successful [getline]
    consumes a byte, so [length text + 1] turns reach the end of the stream
    (see [trim_loop_total]); the fall-back branch is never taken. *)
Definition trim_branch (text : std_string) : std_string :=
  match trim_loop (S (length text)) text [] true with
  | Some out => out
  | None => text
  end.

(** The body of [if (ensure_newline_eof_) { ... }]:
    [if (text.empty() || text.back() != '\n') text.push_back('\n');] *)
Definition newline_branch (text : std_string) : std_string :=
  match back text with
  | None => text ++ [nl]
  | Some c => if Ascii.eqb c nl then text else text ++ [nl]
  end.

Definition apply_save_fixes (trim_ws_on_save_ ensure_newline_eof_ : bool)
    (text : std_string) : std_string :=
  let text1 := if trim_ws_on_save_ then trim_branch text else text in
  if ensure_newline_eof_ then newline_branch text1 else text1.

(** The two fixes on their own, and both together as a save applies them
    with the default preferences. *)
Definition trimTrailingWhitespace : std_string -> std_string :=
  apply_save_fixes true false.

Definition ensureTrailingNewline : std_string -> std_string :=
  apply_save_fixes false true.

Definition save_fixes : std_string -> std_string :=
  apply_save_fixes true true.

(** *** The words of the specification, for comparison

    Splitting on ['\n'] (a text with [n] newlines has [n + 1] lines) and
    joining with ['\n']. *)
Fixpoint split_lines (s : std_string) : list std_string :=
  match s with
  | [] => [[]]
  | c :: rest =>
      if Ascii.eqb c nl then [] :: split_lines rest
      else match split_lines rest with
           | [] => [[c]]
           | l :: ls => (c :: l) :: ls
           end
  end.

Fixpoint join_lines (ls : list std_string) : std_string :=
  match ls with
  | [] => []
  | [l] => l
  | l :: ls' => l ++ nl :: join_lines ls'
  end.

(** [text] without its last byte when that byte is ['\n']. *)
Definition chomp (s : std_string) : std_string :=
  match back s with
  | Some c => if Ascii.eqb c nl then pop_back s else s
  | None => s
  end.

Definition ends_with_newline (s : std_string) : bool :=
  match back s with
  | Some c => Ascii.eqb c nl
  | None => false
  end.

Definition no_newline (l : std_string) : Prop := ~ In nl l.

(** ** The text buffer (GtkTextBuffer, modelled after the GTK 3 reference)

    The buffer holds characters, not bytes; an iterator is a character
    offset between [0] and the length of the text.  The two marks every
    buffer has, [insert] (the cursor) and [selection_bound], have right
    gravity. *)

Definition gunichar := N.
Definition utf8_text := list gunichar.

Record TextBuffer := mkBuffer {
  text : utf8_text;
  insert : nat;
  selection_bound : nat
}.

(** Strings cross the C API as UTF-8.  A byte below [0x80] is one
    character; a lead byte below [0xE0], below [0xF0], or above takes one,
    two or three continuation bytes with it.  Entries and buffers only hand
    out valid UTF-8, so nothing depends on what is done with a truncated
    sequence (it is dropped). *)
Definition cont (b : ascii) : N := N.land (N_of_ascii b) 63.

Fixpoint utf8_decode (s : std_string) : utf8_text :=
  match s with
  | [] => []
  | b0 :: r0 =>
      let n0 := N_of_ascii b0 in
      if (n0 <? 128)%N then n0 :: utf8_decode r0
      else if (n0 <? 224)%N then
        match r0 with
        | b1 :: r1 => (N.land n0 31 * 64 + cont b1)%N :: utf8_decode r1
        | _ => []
        end
      else if (n0 <? 240)%N then
        match r0 with
        | b1 :: b2 :: r2 =>
            (N.land n0 15 * 4096 + cont b1 * 64 + cont b2)%N :: utf8_decode r2
        | _ => []
        end
      else
        match r0 with
        | b1 :: b2 :: b3 :: r3 =>
            (N.land n0 7 * 262144 + cont b1 * 4096 + cont b2 * 64 + cont b3)%N
              :: utf8_decode r3
        | _ => []
        end
  end.

(** Where a mark at offset [m] ends up when the characters between [s] and
    [e] go away, and when [n] characters are inserted at [p] (a mark at [p]
    itself moves to the right of the new text). *)
Definition mark_after_delete (s e m : nat) : nat :=
  if m <=? s then m else if m <=? e then s else m - (e - s).

Definition mark_after_insert (p n m : nat) : nat :=
  if m <? p then m else m + n.

(** [gtk_text_buffer_delete(buffer, &start, &end)]: the order of the two
    iterators does not matter; afterwards both are re-initialised to the
    place where the text was.  The result is the buffer and that place. *)
Definition gtk_text_buffer_delete (b : TextBuffer) (start end_ : nat)
  : TextBuffer * nat :=
  let s := Nat.min start end_ in
  let e := Nat.max start end_ in
  (mkBuffer (firstn s (text b) ++ skipn e (text b))
            (mark_after_delete s e (insert b))
            (mark_after_delete s e (selection_bound b)),
   s).

(** [gtk_text_buffer_insert(buffer, &iter, str, -1)]: the default handler
    of the insertion re-initialises [iter] to point to the END of the
    inserted text.  The result is the buffer and that iterator. *)
Definition gtk_text_buffer_insert (b : TextBuffer) (iter : nat)
    (str : std_string) : TextBuffer * nat :=
  let new := utf8_decode str in
  (mkBuffer (firstn iter (text b) ++ new ++ skipn iter (text b))
            (mark_after_insert iter (length new) (insert b))
            (mark_after_insert iter (length new) (selection_bound b)),
   iter + length new).

(** [gtk_text_iter_forward_chars(&iter, count)] for [count >= 0]: [count]
    characters forward, stopping at the end of the buffer. *)
Definition gtk_text_iter_forward_chars (b : TextBuffer) (iter count : nat)
  : nat :=
  Nat.min (iter + count) (length (text b)).

(** [gtk_text_buffer_set_text]: the old text goes, the new one is inserted
    at the start; the marks end up behind it. *)
Definition gtk_text_buffer_set_text (str : std_string) : TextBuffer :=
  let new := utf8_decode str in
  mkBuffer new (length new) (length new).

(** [gtk_text_buffer_select_range(buffer, ins, bound)]. *)
Definition gtk_text_buffer_select_range (b : TextBuffer) (ins bound : nat)
  : TextBuffer :=
  mkBuffer (text b) ins bound.

(** [gtk_text_buffer_get_selection_bounds]: no selection when the two marks
    coincide, otherwise the two offsets in ascending order. *)
Definition gtk_text_buffer_get_selection_bounds (b : TextBuffer)
  : option (nat * nat) :=
  if insert b =? selection_bound b then None
  else Some (Nat.min (insert b) (selection_bound b),
             Nat.max (insert b) (selection_bound b)).

(** ** The search context (GtkSourceSearchContext)

    [ensure_search_context] configures the search once and for all: not case
    sensitive, no wrap around.  The search text is a literal; an empty search
    text means that there is no search and nothing is found.  Letters are
    compared after folding; the model folds the ASCII letters. *)
Definition fold_case (c : gunichar) : gunichar :=
  if ((65 <=? c) && (c <=? 90))%N then (c + 32)%N else c.

(** Does [t] start with [pat], up to case? *)
Fixpoint starts_with (pat t : utf8_text) : bool :=
  match pat, t with
  | [], _ => true
  | _ :: _, [] => false
  | p :: pat', c :: t' => (fold_case p =? fold_case c)%N && starts_with pat' t'
  end.

(** Is there an occurrence of [pat] in [t] at offset [i]? *)
Definition occurs_at (pat t : utf8_text) (i : nat) : bool :=
  match pat with
  | [] => false
  | _ :: _ => starts_with pat (skipn i t)
  end.

(** The offsets [from, from + 1, ...] of the suffix [t] at which [pat]
    occurs, in ascending order. *)
Fixpoint occurrences_from (pat t : utf8_text) (from : nat) : list nat :=
  match t with
  | [] => []
  | _ :: t' =>
      (if starts_with pat t then [from] else [])
        ++ occurrences_from pat t' (S from)
  end.

Definition occurrences (pat t : utf8_text) : list nat :=
  match pat with
  | [] => []
  | _ :: _ => occurrences_from pat t 0
  end.

(** [gtk_source_search_context_forward(ctx, &iter, &mstart, &mend)]: the
    first occurrence that starts at or after [iter]. *)
Definition gtk_source_search_context_forward (pat : utf8_text)
    (b : TextBuffer) (iter : nat) : option (nat * nat) :=
  match filter (fun s => iter <=? s) (occurrences pat (text b)) with
  | [] => None
  | s :: _ => Some (s, s + length pat)
  end.

(** [gtk_source_search_context_backward]: the last occurrence that ends at
    or before [iter]. *)
Definition gtk_source_search_context_backward (pat : utf8_text)
    (b : TextBuffer) (iter : nat) : option (nat * nat) :=
  match rev (filter (fun s => s + length pat <=? iter)
                    (occurrences pat (text b))) with
  | [] => None
  | s :: _ => Some (s, s + length pat)
  end.

(** [gtk_text_buffer_get_start_iter] and [gtk_text_buffer_get_end_iter]. *)
Definition gtk_text_buffer_get_start_iter (b : TextBuffer) : nat := 0.
Definition gtk_text_buffer_get_end_iter (b : TextBuffer) : nat :=
  length (text b).



(** ** The editor *)

Record Editor := mkEditor {
  buffer_ : TextBuffer;
  current_file_ : std_string;
  modified_ : bool;
  search_text_ : utf8_text;              (* the text of [search_settings_] *)
  file_monitor_ : option std_string;     (* [nullptr], or a monitor on a path *)
  file_mtime_utc_us_ : N;
  suppress_monitor_once_ : bool;
  opened_via_cli_ : bool
}.

Definition set_buffer (b : TextBuffer) (e : Editor) : Editor :=
  mkEditor b (current_file_ e) (modified_ e) (search_text_ e)
           (file_monitor_ e) (file_mtime_utc_us_ e)
           (suppress_monitor_once_ e) (opened_via_cli_ e).

Definition set_current_file (p : std_string) (e : Editor) : Editor :=
  mkEditor (buffer_ e) p (modified_ e) (search_text_ e)
           (file_monitor_ e) (file_mtime_utc_us_ e)
           (suppress_monitor_once_ e) (opened_via_cli_ e).

Definition set_file_monitor (m : option std_string) (e : Editor) : Editor :=
  mkEditor (buffer_ e) (current_file_ e) (modified_ e) (search_text_ e)
           m (file_mtime_utc_us_ e)
           (suppress_monitor_once_ e) (opened_via_cli_ e).

Definition set_file_mtime (t : N) (e : Editor) : Editor :=
  mkEditor (buffer_ e) (current_file_ e) (modified_ e) (search_text_ e)
           (file_monitor_ e) t
           (suppress_monitor_once_ e) (opened_via_cli_ e).

Definition set_suppress_monitor_once (s : bool) (e : Editor) : Editor :=
  mkEditor (buffer_ e) (current_file_ e) (modified_ e) (search_text_ e)
           (file_monitor_ e) (file_mtime_utc_us_ e)
           s (opened_via_cli_ e).

(** [Editor::mark_modified]; the title and the status bar are not
    modelled. *)
Definition mark_modified (is_modified : bool) (e : Editor) : Editor :=
  mkEditor (buffer_ e) (current_file_ e) is_modified (search_text_ e)
           (file_monitor_ e) (file_mtime_utc_us_ e)
           (suppress_monitor_once_ e) (opened_via_cli_ e).

(** A change of the buffer's contents emits ["changed"], which is connected
    to [s_on_buffer_changed], that is [mark_modified(true)]. *)
Definition buffer_changed (b : TextBuffer) (e : Editor) : Editor :=
  mark_modified true (set_buffer b e).

(** [Editor::update_search_from_dialog]: the entry's text becomes the
    search text. *)
Definition update_search_from_dialog (entry : std_string) (e : Editor)
  : Editor :=
  mkEditor (buffer_ e) (current_file_ e) (modified_ e) (utf8_decode entry)
           (file_monitor_ e) (file_mtime_utc_us_ e)
           (suppress_monitor_once_ e) (opened_via_cli_ e).

(** *** [Editor::search_find_next]

    The locals [found], [mstart], [mend] after the two attempts. *)
Definition find_next_match (pat : utf8_text) (b : TextBuffer)
    (backwards : bool) : option (nat * nat) :=
  let iter := insert b in
  if backwards then
    match gtk_source_search_context_backward pat b iter with
    | Some m => Some m
    | None =>
        (* wrap to end *)
        gtk_source_search_context_backward pat b
          (gtk_text_buffer_get_end_iter b)
    end
  else
    match gtk_source_search_context_forward pat b iter with
    | Some m => Some m
    | None =>
        (* wrap to start *)
        gtk_source_search_context_forward pat b
          (gtk_text_buffer_get_start_iter b)
    end.

(** The whole function: when something is found it becomes the selection,
    otherwise the buffer stays as it is. *)
Definition search_find_next (backwards : bool) (e : Editor) : Editor :=
  match find_next_match (search_text_ e) (buffer_ e) backwards with
  | None => e
  | Some (mstart, mend) =>
      set_buffer (gtk_text_buffer_select_range (buffer_ e) mstart mend) e
  end.

(** *** [Editor::search_replace_one] *)
Definition search_replace_one (repl : std_string) (e : Editor) : Editor :=
  let e1 :=
    match gtk_text_buffer_get_selection_bounds (buffer_ e) with
    | Some _ => e
    | None => search_find_next false e   (* no selection: find next first *)
    end in
  match gtk_text_buffer_get_selection_bounds (buffer_ e1) with
  | None => e1
  | Some (s, e_) =>
      let '(b1, s1) := gtk_text_buffer_delete (buffer_ e1) s e_ in
      let '(b2, _) := gtk_text_buffer_insert b1 s1 repl in
      buffer_changed b2 e1
  end.

(** *** [Editor::search_replace_all]

    The [while] loop with its locals [iter] and [count].  [repl.size()] is
    the number of BYTES of the replacement; its cast to [gint] changes
    nothing, the text of an entry being far shorter than [2^31] bytes.
    [None] means that [fuel] turns did not end the loop. *)
Fixpoint replace_all_loop (fuel : nat) (pat : utf8_text) (repl : std_string)
    (b : TextBuffer) (iter : nat) (count : Z) : option (TextBuffer * Z) :=
  match fuel with
  | O => None
  | S fuel' =>
      match gtk_source_search_context_forward pat b iter with
      | None => Some (b, count)
      | Some (mstart, mend) =>
          let '(b1, mstart1) := gtk_text_buffer_delete b mstart mend in
          let '(b2, mstart2) := gtk_text_buffer_insert b1 mstart1 repl in
          let count' := (count + 1)%Z in
          let iter' := gtk_text_iter_forward_chars b2 mstart2 (length repl) in
          replace_all_loop fuel' pat repl b2 iter' count'
      end
  end.

(** The loop from the start iterator with [count = 0].  Every turn brings
    [iter] closer to the end of the buffer, so [length text + 1] turns end
    the loop (see [replace_all_loop_total]); the fall-back branch is never
    taken.  The result is the buffer and the last value of [count], which
    the source computes and then drops ([(void)count]). *)
Definition replace_all (pat : utf8_text) (repl : std_string) (b : TextBuffer)
  : TextBuffer * Z :=
  match replace_all_loop (S (length (text b))) pat repl b
          (gtk_text_buffer_get_start_iter b) 0%Z with
  | Some r => r
  | None => (b, 0%Z)
  end.

Definition search_replace_all (repl : std_string) (e : Editor) : Editor :=
  let '(b, count) := replace_all (search_text_ e) repl (buffer_ e) in
  if (0 <? count)%Z then buffer_changed b e else e.

(** ** The file monitor *)

(** [GFileMonitorEvent]. *)
Inductive GFileMonitorEvent :=
| G_FILE_MONITOR_EVENT_CHANGED
| G_FILE_MONITOR_EVENT_CHANGES_DONE_HINT
| G_FILE_MONITOR_EVENT_DELETED
| G_FILE_MONITOR_EVENT_CREATED
| G_FILE_MONITOR_EVENT_ATTRIBUTE_CHANGED
| G_FILE_MONITOR_EVENT_PRE_UNMOUNT
| G_FILE_MONITOR_EVENT_UNMOUNTED
| G_FILE_MONITOR_EVENT_MOVED
| G_FILE_MONITOR_EVENT_RENAMED
| G_FILE_MONITOR_EVENT_MOVED_IN
| G_FILE_MONITOR_EVENT_MOVED_OUT.

(** The events that pass the filter of [s_on_file_monitor_changed]. *)
Definition passes_event_filter (ev : GFileMonitorEvent) : bool :=
  match ev with
  | G_FILE_MONITOR_EVENT_CHANGED
  | G_FILE_MONITOR_EVENT_CHANGES_DONE_HINT
  | G_FILE_MONITOR_EVENT_CREATED
  | G_FILE_MONITOR_EVENT_MOVED_IN => true
  | _ => false
  end.

(** What [g_file_get_contents] gives. *)
Inductive ReadResult :=
| ReadOk (contents : std_string)
| ReadNoEnt                      (* [G_FILE_ERROR_NOENT] *)
| ReadError.                     (* any other error *)

(** The modal dialogs the editor can run. *)
Inductive Dialog :=
| DiscardDialog                  (* "You have unsaved changes." *)
| ReloadDialog.                  (* "File changed on disk." *)

(** What the surroundings answer while one operation runs. *)
Record World := mkWorld {
  query_info : option N;         (* [g_file_query_info] in the handler:
                                    seconds, or no info *)
  reload_answer : bool;          (* [true] is "_Reload" *)
  discard_answer : bool;         (* [true] is "_Discard" *)
  file_contents : ReadResult;
  monitor_ok : bool;             (* [g_file_monitor_file] gave a monitor *)
  query_info_after : option N;   (* [g_file_query_info] after a monitor was
                                    installed or the file was written *)
  write_ok : bool                (* [g_file_set_contents] succeeded *)
}.

(** [file_mtime_us_gio]: seconds times [1000000ULL] in [guint64], and [0]
    when the file cannot be queried. *)
Definition file_mtime_us_gio (info : option N) : N :=
  match info with
  | Some sec => ((sec * 1000000) mod 2 ^ 64)%N
  | None => 0%N
  end.

Definition get_file_mtime_us (info : option N) : N := file_mtime_us_gio info.

(** [Editor::remove_file_monitor] and [Editor::install_file_monitor]. *)
Definition remove_file_monitor (e : Editor) : Editor :=
  set_file_monitor None e.

Definition install_file_monitor (w : World) (path : std_string) (e : Editor)
  : Editor :=
  let e1 := remove_file_monitor e in
  match path with
  | [] => e1
  | _ :: _ =>
      if monitor_ok w then
        set_file_mtime (get_file_mtime_us (query_info_after w))
                       (set_file_monitor (Some path) e1)
      else e1
  end.

(** [Editor::maybe_confirm_discard] and [Editor::confirm_reload_external]:
    the answer, and the dialogs that were run. *)
Definition maybe_confirm_discard (w : World) (e : Editor)
  : bool * list Dialog :=
  if negb (modified_ e) then (true, [])
  else (discard_answer w, [DiscardDialog]).

Definition confirm_reload_external (w : World) : bool * list Dialog :=
  (reload_answer w, [ReloadDialog]).

(** [Editor::open_file_from_path]. *)
Definition open_file_from_path (w : World) (path : std_string) (e : Editor)
  : Editor * list Dialog :=
  let '(go_on, shown) :=
    if negb (opened_via_cli_ e) && modified_ e
    then maybe_confirm_discard w e
    else (true, []) in
  if negb go_on then (e, shown)
  else
    match file_contents w with
    | ReadOk contents =>
        let e1 := set_suppress_monitor_once true e in
        let e2 := buffer_changed (gtk_text_buffer_set_text contents) e1 in
        let e3 := set_current_file path e2 in
        let e4 := install_file_monitor w path e3 in
        (mark_modified false e4, shown)
    | ReadNoEnt =>
        let e1 := buffer_changed (gtk_text_buffer_set_text []) e in
        let e2 := set_current_file path e1 in
        let e3 := remove_file_monitor e2 in
        (mark_modified false e3, shown)
    | ReadError => (e, shown)
    end.

(** The statement [suppress_monitor_once_ = true;] that [save_file] and
    [save_file_as] run right before they write. *)
Definition markOwnWrite (e : Editor) : Editor :=
  set_suppress_monitor_once true e.

(** [Editor::save_file] on a named file, as far as the editor's own state
    goes: what is written is [apply_save_fixes] of the buffer's text, and
    it goes, like the backup, to the file system. *)
Definition save_file (w : World) (e : Editor) : Editor :=
  let e1 := markOwnWrite e in
  if write_ok w then
    mark_modified false
      (set_file_mtime (get_file_mtime_us (query_info_after w)) e1)
  else e1.

(** How a run of the handler ended: by one of its early [return]s, or
    behind the update of [file_mtime_utc_us_]. *)
Inductive Outcome := Ignore | ExternalChangeDetected.

(** [Editor::s_on_file_monitor_changed]. *)
Definition s_on_file_monitor_changed (w : World) (ev : GFileMonitorEvent)
    (self : Editor) : Outcome * Editor * list Dialog :=
  match current_file_ self with
  | [] => (Ignore, self, [])
  | _ :: _ =>
      if suppress_monitor_once_ self then
        (Ignore, set_suppress_monitor_once false self, [])
      else if negb (passes_event_filter ev) then (Ignore, self, [])
      else
        let now_mtime := get_file_mtime_us (query_info w) in
        if (now_mtime =? 0)%N then (Ignore, self, [])
        else if (now_mtime =? file_mtime_utc_us_ self)%N
        then (Ignore, self, [])
        else
          let self1 := set_file_mtime now_mtime self in
          if modified_ self1 then
            let '(reload, shown) := confirm_reload_external w in
            if reload then
              let '(self2, shown') :=
                open_file_from_path w (current_file_ self1) self1 in
              (ExternalChangeDetected, self2, shown ++ shown')
            else (ExternalChangeDetected, self1, shown)
          else
            let '(self2, shown) :=
              open_file_from_path w (current_file_ self1) self1 in
            (ExternalChangeDetected, self2, shown)
  end.

(** *** The reconciler of the specification, read off the editor *)
Inductive Reconciler :=
| Unwatched
| Watching (path : std_string) (lastMtime : N)
| SuppressedOnce (path : std_string) (lastMtime : N).

Definition reconciler (e : Editor) : Reconciler :=
  match file_monitor_ e with
  | None => Unwatched
  | Some path =>
      if suppress_monitor_once_ e
      then SuppressedOnce path (file_mtime_utc_us_ e)
      else Watching path (file_mtime_utc_us_ e)
  end.

(** ** Path helpers *)

(** [s.find_last_of(set)]: the last position of a byte of [set], or
    [std::string::npos] ([None]). *)
Fixpoint find_last_of (set : ascii -> bool) (s : std_string) : option nat :=
  match s with
  | [] => None
  | c :: rest =>
      match find_last_of set rest with
      | Some pos => Some (S pos)
      | None => if set c then Some 0 else None
      end
  end.

(** The bytes of ["/\\"]. *)
Definition is_path_separator (c : ascii) : bool :=
  Ascii.eqb c "/"%char || Ascii.eqb c "\"%char.

Definition dirname_of (p : std_string) : std_string :=
  match find_last_of is_path_separator p with
  | None => lit "."
  | Some 0 => lit "/"
  | Some pos => firstn pos p
  end.

Definition basename_of (p : std_string) : std_string :=
  match find_last_of is_path_separator p with
  | None => p
  | Some pos => skipn (pos + 1) p
  end.

(** ** The language of a file name *)

(** [std::tolower] on an [unsigned char], in the C locale. *)
Definition tolower (c : ascii) : ascii :=
  let n := N_of_ascii c in
  if ((65 <=? n) && (n <=? 90))%N then ascii_of_N (n + 32) else c.

Definition to_lower (s : std_string) : std_string := map tolower s.

Definition str_eqb (a b : std_string) : bool :=
  if list_eq_dec ascii_dec a b then true else false.

(** The local [ext] of [Editor::update_language_for_filename]: what
    follows the last ['.'] of the file name, in lower case; empty when
    there is no ['.'] or nothing behind it. *)
Definition extension_of (filename : std_string) : std_string :=
  match find_last_of (Ascii.eqb "."%char) filename with
  | Some dot =>
      if dot + 1 <? length filename
      then to_lower (skipn (dot + 1) filename)
      else []
  | None => []
  end.

(** [ext == "..."]. *)
Definition ext_is (ext : std_string) (s : string) : bool :=
  str_eqb ext (lit s).

(** The chain of comparisons that gives the local [lang_id]. *)
Definition lang_id_of_extension (ext : std_string) : std_string :=
  if ext_is ext "c" then lit "c"
  else if ext_is ext "cpp" || ext_is ext "cc" || ext_is ext "cxx" || ext_is ext "hpp" || ext_is ext "hh"
          || ext_is ext "hxx" || ext_is ext "h" then lit "cpp"
  else if ext_is ext "py" then lit "python"
  else if ext_is ext "sh" || ext_is ext "bash" || ext_is ext "zsh" then lit "sh"
  else if ext_is ext "js" then lit "javascript"
  else if ext_is ext "html" || ext_is ext "htm" then lit "html"
  else if ext_is ext "css" then lit "css"
  else if ext_is ext "json" then lit "json"
  else if ext_is ext "xml" then lit "xml"
  else if ext_is ext "md" || ext_is ext "markdown" then lit "markdown"
  else [].

(** The [lang_id] that [Editor::update_language_for_filename] asks the
    language manager for; with an empty one it turns highlighting off. *)
Definition lang_id_for_filename (filename : std_string) : std_string :=
  lang_id_of_extension (extension_of filename).

(** ** Preferences and zoom *)

Record Prefs := mkPrefs {
  trim_ws_on_save_ : bool;
  ensure_newline_eof_ : bool;
  tab_width_ : Z;
  font_pt_ : Z
}.

(** The member initialisers of the class. *)
Definition default_prefs : Prefs := mkPrefs true true 4 11.

Definition set_font_pt (pt : Z) (p : Prefs) : Prefs :=
  mkPrefs (trim_ws_on_save_ p) (ensure_newline_eof_ p) (tab_width_ p) pt.

(** [Editor::zoom_set] and [Editor::zoom_step]; the font description is
    the toolkit's business. *)
Definition zoom_set (pt : Z) (p : Prefs) : Prefs :=
  let pt1 := if (pt <? 7)%Z then 7%Z else pt in
  let pt2 := if (pt1 >? 32)%Z then 32%Z else pt1 in
  set_font_pt pt2 p.

Definition zoom_step (delta : Z) (p : Prefs) : Prefs :=
  zoom_set (font_pt_ p + delta) p.

(** The key values [Editor::s_on_key_press] looks at. *)
Definition GDK_KEY_plus : N := 43.
Definition GDK_KEY_equal : N := 61.
Definition GDK_KEY_minus : N := 45.
Definition GDK_KEY_0 : N := 48.
Definition GDK_KEY_g : N := 103.
Definition GDK_KEY_G : N := 71.

(** [Editor::s_on_key_press]: [ctrl] is [e->state & GDK_CONTROL_MASK];
    the result is [TRUE] when the key was handled. *)
Definition s_on_key_press (ctrl : bool) (keyval : N) (self : Editor * Prefs)
  : bool * (Editor * Prefs) :=
  let '(e, p) := self in
  if negb ctrl then (false, self)
  else if (keyval =? GDK_KEY_plus)%N || (keyval =? GDK_KEY_equal)%N
  then (true, (e, zoom_step 1 p))
  else if (keyval =? GDK_KEY_minus)%N then (true, (e, zoom_step (-1) p))
  else if (keyval =? GDK_KEY_0)%N then (true, (e, zoom_set 11 p))
  else if (keyval =? GDK_KEY_g)%N then (true, (search_find_next false e, p))
  else if (keyval =? GDK_KEY_G)%N then (true, (search_find_next true e, p))
  else (false, self).

(** ** More file operations *)

Definition set_opened_via_cli (b : bool) (e : Editor) : Editor :=
  mkEditor (buffer_ e) (current_file_ e) (modified_ e) (search_text_ e)
           (file_monitor_ e) (file_mtime_utc_us_ e)
           (suppress_monitor_once_ e) b.

(** The editor right after its member initialisers. *)
Definition initial_editor : Editor :=
  mkEditor (mkBuffer [] 0 0) [] false [] None 0 false false.

(** [Editor::new_file]. *)
Definition new_file (w : World) (e : Editor) : Editor * list Dialog :=
  let '(go_on, shown) := maybe_confirm_discard w e in
  if negb go_on then (e, shown)
  else
    let e1 := buffer_changed (gtk_text_buffer_set_text []) e in
    let e2 := set_current_file [] e1 in
    let e3 := remove_file_monitor e2 in
    (mark_modified false e3, shown).

(** [Editor::s_on_reload_activate]: [w1] answers the dialog of the
    callback itself, [w2] is the world [open_file_from_path] then runs
    in. *)
Definition s_on_reload_activate (w1 w2 : World) (self : Editor)
  : Editor * list Dialog :=
  match current_file_ self with
  | [] => (self, [])
  | _ :: _ =>
      let '(go_on, shown) :=
        if modified_ self then maybe_confirm_discard w1 self
        else (true, []) in
      if negb go_on then (self, shown)
      else
        let '(self1, shown') :=
          open_file_from_path w2 (current_file_ self) self in
        (self1, shown ++ shown')
  end.

(** [Editor::s_on_recent_activated]: [path] is what the chooser's URI
    gives as a file name, [None] when there is no URI or no file name
    for it. *)
Definition s_on_recent_activated (w : World) (path : option std_string)
    (self : Editor) : Editor * list Dialog :=
  match path with
  | None => (self, [])
  | Some p =>
      let '(self1, shown) :=
        open_file_from_path w p (set_opened_via_cli true self) in
      (set_opened_via_cli false self1, shown)
  end.

(** [Editor::on_open] on an editor that exists: every file is opened in
    turn, each in the world it is read in; [None] is a [GFile] without a
    path. *)
Definition on_open (files : list (option std_string * World))
    (e : Editor) : Editor * list Dialog :=
  let step (acc : Editor * list Dialog) (f : option std_string * World) :=
    match fst f with
    | None => acc
    | Some path =>
        let '(e1, shown) := open_file_from_path (snd f) path (fst acc) in
        (e1, snd acc ++ shown)
    end in
  let '(e1, shown) :=
    fold_left step files (set_opened_via_cli true e, []) in
  (set_opened_via_cli false e1, shown).

(** [Editor::save_file_as], as far as the editor's own state goes:
    [filename] is what the file chooser gives, [None] when it is
    cancelled. *)
Definition save_file_as (w : World) (filename : option std_string)
    (e : Editor) : Editor :=
  match filename with
  | None => e
  | Some fn =>
      let e1 := markOwnWrite e in
      if write_ok w then
        let e2 := set_current_file fn e1 in
        let e3 := install_file_monitor w fn e2 in
        let e4 := set_file_mtime (get_file_mtime_us (query_info_after w)) e3 in
        mark_modified false e4
      else e1
  end.

(** [Editor::save_file] with its first branch: an editor without a file
    name saves as. *)
Definition s_on_save_activate (w : World) (filename : option std_string)
    (e : Editor) : Editor :=
  match current_file_ e with
  | [] => save_file_as w filename e
  | _ :: _ => save_file w e
  end.

(** ** The replace dialog *)

(** [GtkResponseType], as far as the dialogs tell responses apart. *)
Inductive GtkResponseType :=
| GTK_RESPONSE_ACCEPT            (* "_Replace" *)
| GTK_RESPONSE_APPLY             (* "Replace _All" *)
| GTK_RESPONSE_OK
| GTK_RESPONSE_CLOSE
| GTK_RESPONSE_DELETE_EVENT.

(** [Editor::s_on_replace_dialog_response]: [f] and [r] are the texts of
    the two entries. *)
Definition s_on_replace_dialog_response (resp : GtkResponseType)
    (f r : std_string) (self : Editor) : Editor :=
  let self1 := update_search_from_dialog f self in
  match resp with
  | GTK_RESPONSE_ACCEPT =>
      search_replace_one r (search_find_next false self1)
  | GTK_RESPONSE_APPLY => search_replace_all r self1
  | _ => self1
  end.

(** ** Configuration and session (GKeyFile)

    A key file maps a group and a key to a value, which is a text.  How
    the toolkit writes a boolean, an integer and a string as a value and
    reads them back is given by a [KeyFileValues]; reading gives [None]
    for a value that cannot be interpreted. *)
Definition GKeyFile := std_string -> std_string -> option std_string.

Record KeyFileValues := mkKeyFileValues {
  boolean_text : bool -> std_string;
  text_boolean : std_string -> option bool;
  integer_text : Z -> std_string;
  text_integer : std_string -> option Z;
  string_text : std_string -> std_string;
  text_string : std_string -> option std_string
}.

Definition g_key_file_new : GKeyFile := fun _ _ => None.

Definition key_file_set (kf : GKeyFile) (group key value : std_string)
  : GKeyFile :=
  fun g k => if str_eqb group g && str_eqb key k then Some value else kf g k.

Definition g_key_file_has_key (kf : GKeyFile) (group key : std_string)
  : bool :=
  match kf group key with Some _ => true | None => false end.

(** The getters are called without an error pointer: a key that is not
    there or a value that cannot be interpreted gives [FALSE], [0] and
    [NULL]. *)
Definition g_key_file_get_boolean (V : KeyFileValues) (kf : GKeyFile)
    (group key : std_string) : bool :=
  match kf group key with
  | Some v => match text_boolean V v with Some b => b | None => false end
  | None => false
  end.

Definition g_key_file_get_integer (V : KeyFileValues) (kf : GKeyFile)
    (group key : std_string) : Z :=
  match kf group key with
  | Some v => match text_integer V v with Some z => z | None => 0%Z end
  | None => 0%Z
  end.

Definition g_key_file_get_string (V : KeyFileValues) (kf : GKeyFile)
    (group key : std_string) : option std_string :=
  match kf group key with
  | Some v => text_string V v
  | None => None
  end.

Definition g_key_file_set_boolean (V : KeyFileValues) (kf : GKeyFile)
    (group key : std_string) (b : bool) : GKeyFile :=
  key_file_set kf group key (boolean_text V b).

Definition g_key_file_set_integer (V : KeyFileValues) (kf : GKeyFile)
    (group key : std_string) (z : Z) : GKeyFile :=
  key_file_set kf group key (integer_text V z).

Definition g_key_file_set_string (V : KeyFileValues) (kf : GKeyFile)
    (group key : std_string) (s : std_string) : GKeyFile :=
  key_file_set kf group key (string_text V s).

(** One way to write values: [true] and [false], decimal integers,
    strings as they are. *)
Definition plain_values : KeyFileValues :=
  mkKeyFileValues
    (fun b => if b then lit "true" else lit "false")
    (fun v => if str_eqb v (lit "true") then Some true
              else if str_eqb v (lit "false") then Some false else None)
    (fun z => lit (DecimalString.NilEmpty.string_of_int (Z.to_int z)))
    (fun v => option_map Z.of_int
                (DecimalString.NilEmpty.int_of_string (string_of_list_ascii v)))
    (fun s => s)
    (fun v => Some v).

(** [config.ini] on disk: [None] when [g_key_file_load_from_file] fails
    (no file, or not a key file). *)
Definition ConfigFile := option GKeyFile.

Definition set_trim_ws_on_save (b : bool) (p : Prefs) : Prefs :=
  mkPrefs b (ensure_newline_eof_ p) (tab_width_ p) (font_pt_ p).

Definition set_ensure_newline_eof (b : bool) (p : Prefs) : Prefs :=
  mkPrefs (trim_ws_on_save_ p) b (tab_width_ p) (font_pt_ p).

Definition set_tab_width (z : Z) (p : Prefs) : Prefs :=
  mkPrefs (trim_ws_on_save_ p) (ensure_newline_eof_ p) z (font_pt_ p).

(** [Editor::load_config]. *)
Definition load_config (V : KeyFileValues) (disk : ConfigFile) (p : Prefs)
  : Prefs :=
  match disk with
  | None => p
  | Some kf =>
      let p1 :=
        if g_key_file_has_key kf (lit "prefs") (lit "trim_ws_on_save")
        then set_trim_ws_on_save
               (g_key_file_get_boolean V kf (lit "prefs")
                  (lit "trim_ws_on_save")) p
        else p in
      let p2 :=
        if g_key_file_has_key kf (lit "prefs") (lit "ensure_newline_eof")
        then set_ensure_newline_eof
               (g_key_file_get_boolean V kf (lit "prefs")
                  (lit "ensure_newline_eof")) p1
        else p1 in
      let p3 :=
        if g_key_file_has_key kf (lit "prefs") (lit "tab_width")
        then set_tab_width
               (g_key_file_get_integer V kf (lit "prefs") (lit "tab_width"))
               p2
        else p2 in
      if g_key_file_has_key kf (lit "prefs") (lit "font_pt")
      then set_font_pt
             (g_key_file_get_integer V kf (lit "prefs") (lit "font_pt")) p3
      else p3
  end.

(** The key file [Editor::save_config] builds, and the function itself:
    the result is [config.ini] afterwards; [written] tells whether
    [g_file_set_contents] succeeded. *)
Definition config_key_file (V : KeyFileValues) (p : Prefs) : GKeyFile :=
  let kf0 := g_key_file_new in
  let kf1 := g_key_file_set_boolean V kf0 (lit "prefs")
               (lit "trim_ws_on_save") (trim_ws_on_save_ p) in
  let kf2 := g_key_file_set_boolean V kf1 (lit "prefs")
               (lit "ensure_newline_eof") (ensure_newline_eof_ p) in
  let kf3 := g_key_file_set_integer V kf2 (lit "prefs") (lit "tab_width")
               (tab_width_ p) in
  g_key_file_set_integer V kf3 (lit "prefs") (lit "font_pt") (font_pt_ p).

Definition save_config (V : KeyFileValues) (written : bool)
    (disk : ConfigFile) (p : Prefs) : ConfigFile :=
  if written then Some (config_key_file V p) else disk.

(** [Editor::load_session]. *)
Definition load_session (V : KeyFileValues) (disk : ConfigFile) (e : Editor)
  : Editor :=
  match disk with
  | None => e
  | Some kf =>
      if g_key_file_has_key kf (lit "session") (lit "last_file") then
        match g_key_file_get_string V kf (lit "session") (lit "last_file")
        with
        | Some (c :: lf) => set_current_file (c :: lf) e
        | _ => e
        end
      else e
  end.

(** [Editor::save_session]: the existing file is loaded first, to keep
    its other keys. *)
Definition save_session (V : KeyFileValues) (written : bool)
    (disk : ConfigFile) (e : Editor) : ConfigFile :=
  let kf0 := match disk with Some kf => kf | None => g_key_file_new end in
  let kf1 := g_key_file_set_string V kf0 (lit "session") (lit "last_file")
               (current_file_ e) in
  if written then Some kf1 else disk.

(** The constructor: [load_config], [load_session], and of [setup_ui] the
    call [zoom_set(font_pt_)]. *)
Definition Editor_new (V : KeyFileValues) (disk : ConfigFile)
  : Editor * Prefs :=
  let p := load_config V disk default_prefs in
  let e := load_session V disk initial_editor in
  (e, zoom_set (font_pt_ p) p).

(** The destructor: [remove_file_monitor], [save_session], then
    [save_config]; the result is [config.ini] afterwards. *)
Definition Editor_delete (V : KeyFileValues) (written1 written2 : bool)
    (disk : ConfigFile) (self : Editor * Prefs) : ConfigFile :=
  let e := remove_file_monitor (fst self) in
  let disk1 := save_session V written1 disk e in
  save_config V written2 disk1 (snd self).

(** The monitor, when there is one, is on the file the editor shows. *)
Definition monitor_on_current_file (e : Editor) : Prop :=
  match file_monitor_ e with
  | None => True
  | Some path => path = current_file_ e /\ path <> []
  end.

(** The range of an [int]. *)
Definition is_int (z : Z) : Prop := (- 2 ^ 31 <= z < 2 ^ 31)%Z.

(** * Properties *)

(** ** Strings from their last byte *)

Section LastByte.

Lemma back_snoc (s : std_string) (c : ascii) : back (s ++ [c]) = Some c.
Proof. unfold back. rewrite rev_unit. reflexivity. Qed.

Lemma pop_back_snoc (s : std_string) (c : ascii) : pop_back (s ++ [c]) = s.
Proof. apply removelast_last. Qed.

Lemma back_none (s : std_string) : back s = None -> s = [].
Proof.
  destruct s as [|a s] using rev_ind; [reflexivity|].
  rewrite back_snoc. discriminate.
Qed.

Lemma back_some (s : std_string) (c : ascii) :
  back s = Some c -> exists s', s = s' ++ [c].
Proof.
  destruct s as [|a s _] using rev_ind; [discriminate|].
  rewrite back_snoc. intros [= ->]. now exists s.
Qed.

Lemma back_cons (c : ascii) (s : std_string) :
  back (c :: s) = match s with [] => Some c | _ :: _ => back s end.
Proof.
  destruct s as [|a s _] using rev_ind; [reflexivity|].
  rewrite app_comm_cons, !back_snoc. now destruct s.
Qed.

Lemma pop_back_cons (c : ascii) (s : std_string) :
  s <> [] -> pop_back (c :: s) = c :: pop_back s.
Proof. destruct s; [congruence | reflexivity]. Qed.

Lemma ends_with_newline_snoc (s : std_string) (c : ascii) :
  ends_with_newline (s ++ [c]) = Ascii.eqb c nl.
Proof. unfold ends_with_newline. now rewrite back_snoc. Qed.

Lemma ends_with_newline_true (s : std_string) :
  ends_with_newline s = true -> exists s', s = s' ++ [nl].
Proof.
  unfold ends_with_newline. destruct (back s) as [c|] eqn:E; [|discriminate].
  intros H. apply Ascii.eqb_eq in H. subst c. now apply back_some.
Qed.

Lemma chomp_snoc_nl (s : std_string) : chomp (s ++ [nl]) = s.
Proof. unfold chomp. rewrite back_snoc. simpl. apply pop_back_snoc. Qed.

Lemma chomp_no_newline (s : std_string) :
  ends_with_newline s = false -> chomp s = s.
Proof.
  unfold chomp, ends_with_newline. destruct (back s); [|reflexivity].
  now intros ->.
Qed.

Lemma chomp_cons (c : ascii) (s : std_string) :
  s <> [] -> chomp (c :: s) = c :: chomp s.
Proof.
  intros Hs. unfold chomp. rewrite back_cons.
  destruct s as [|a s']; [congruence|].
  destruct (back (a :: s')) as [d|]; [|reflexivity].
  destruct (Ascii.eqb d nl); [|reflexivity].
  now apply pop_back_cons.
Qed.

End LastByte.

(** ** [rtrim_copy] *)

Section Rtrim.

Lemma rtrim_copy_nil : rtrim_copy [] = [].
Proof. reflexivity. Qed.

Lemma rtrim_copy_snoc (s : std_string) (c : ascii) :
  rtrim_copy (s ++ [c]) =
  if is_space_char c then rtrim_copy s else s ++ [c].
Proof.
  unfold rtrim_copy. rewrite length_app. simpl length.
  rewrite Nat.add_1_r. simpl. rewrite back_snoc, pop_back_snoc.
  reflexivity.
Qed.

(** What is removed is a run of white space at the end, and what is left
    does not end with white space. *)
Lemma rtrim_copy_spec (s : std_string) :
  exists ws, s = rtrim_copy s ++ ws
             /\ forallb is_space_char ws = true
             /\ (forall c, back (rtrim_copy s) = Some c ->
                           is_space_char c = false).
Proof.
  induction s as [|c s IH] using rev_ind.
  - exists []. repeat split. discriminate.
  - rewrite rtrim_copy_snoc. destruct (is_space_char c) eqn:Ec.
    + destruct IH as (ws & Hs & Hws & Hb). exists (ws ++ [c]).
      repeat split; [|rewrite forallb_app; simpl; now rewrite Hws, Ec|exact Hb].
      rewrite app_assoc. now rewrite <- Hs.
    + exists []. rewrite app_nil_r. repeat split.
      intros d. rewrite back_snoc. now intros [= <-].
Qed.

Lemma rtrim_copy_idempotent (s : std_string) :
  rtrim_copy (rtrim_copy s) = rtrim_copy s.
Proof.
  induction s as [|c s IH] using rev_ind; [reflexivity|].
  rewrite rtrim_copy_snoc. destruct (is_space_char c) eqn:Ec; [exact IH|].
  now rewrite rtrim_copy_snoc, Ec.
Qed.

Lemma rtrim_copy_no_newline (s : std_string) :
  ~ In nl s -> ~ In nl (rtrim_copy s).
Proof.
  destruct (rtrim_copy_spec s) as (ws & Hs & _). intros Hn Hin.
  apply Hn. rewrite Hs. apply in_or_app. now left.
Qed.

End Rtrim.

(** ** Lines *)

Section Lines.

Lemma split_lines_not_nil (s : std_string) : split_lines s <> [].
Proof.
  destruct s as [|c s]; simpl; [discriminate|].
  destruct (Ascii.eqb c nl); [discriminate|].
  destruct (split_lines s); discriminate.
Qed.

Lemma split_lines_no_newline (s : std_string) :
  Forall no_newline (split_lines s).
Proof.
  induction s as [|c s IH]; simpl.
  - constructor; [intros []|constructor].
  - destruct (Ascii.eqb c nl) eqn:Ec.
    + constructor; [intros []|exact IH].
    + apply Ascii.eqb_neq in Ec.
      destruct (split_lines s) as [|l ls].
      * constructor; [|constructor]. intros [H|[]]. congruence.
      * inversion IH as [|? ? Hl Hls]; subst. constructor; [|exact Hls].
        intros [H|H]; [congruence|now apply Hl].
Qed.

Lemma join_lines_cons (l : std_string) (ls : list std_string) :
  join_lines (l :: ls) =
  l ++ match ls with [] => [] | _ :: _ => nl :: join_lines ls end.
Proof. destruct ls; simpl; [now rewrite app_nil_r|reflexivity]. Qed.

Lemma join_split (s : std_string) : join_lines (split_lines s) = s.
Proof.
  induction s as [|c s IH]; [reflexivity|]. simpl split_lines.
  destruct (Ascii.eqb c nl) eqn:Ec.
  - apply Ascii.eqb_eq in Ec. subst c. rewrite join_lines_cons.
    pose proof (split_lines_not_nil s) as Hn.
    destruct (split_lines s); [congruence|]. cbn [app]. f_equal. exact IH.
  - pose proof (split_lines_not_nil s) as Hn.
    destruct (split_lines s) as [|l ls]; [congruence|].
    rewrite join_lines_cons. rewrite join_lines_cons in IH.
    simpl. now rewrite IH.
Qed.

Lemma split_lines_app (l : std_string) (s : std_string) :
  no_newline l ->
  split_lines (l ++ nl :: s) = l :: split_lines s.
Proof.
  induction l as [|c l IH]; intros Hl; simpl.
  - reflexivity.
  - destruct (Ascii.eqb c nl) eqn:Ec.
    + apply Ascii.eqb_eq in Ec. exfalso. apply Hl. now left.
    + rewrite IH; [reflexivity|]. intros H. apply Hl. now right.
Qed.

Lemma split_lines_single (l : std_string) :
  no_newline l -> split_lines l = [l].
Proof.
  induction l as [|c l IH]; intros Hl; simpl; [reflexivity|].
  destruct (Ascii.eqb c nl) eqn:Ec.
  - apply Ascii.eqb_eq in Ec. exfalso. apply Hl. now left.
  - rewrite IH; [reflexivity|]. intros H. apply Hl. now right.
Qed.

Lemma split_join (ls : list std_string) :
  ls <> [] -> Forall no_newline ls -> split_lines (join_lines ls) = ls.
Proof.
  induction ls as [|l ls IH]; [congruence|]. intros _ Hall.
  inversion Hall as [|? ? Hl Hls]; subst. rewrite join_lines_cons.
  destruct ls as [|l' ls'].
  - rewrite app_nil_r. now apply split_lines_single.
  - rewrite split_lines_app by exact Hl. f_equal.
    apply IH; [discriminate|exact Hls].
Qed.

Lemma split_lines_snoc_nl (s : std_string) :
  split_lines (s ++ [nl]) = split_lines s ++ [[]].
Proof.
  induction s as [|c s IH]; [reflexivity|]. simpl.
  destruct (Ascii.eqb c nl); rewrite IH; [reflexivity|].
  pose proof (split_lines_not_nil s) as Hn.
  destruct (split_lines s); [congruence|reflexivity].
Qed.

(** The lines of [chomp s] are lines of [s]. *)
Lemma split_lines_chomp (P : std_string -> Prop) (s : std_string) :
  Forall P (split_lines s) -> Forall P (split_lines (chomp s)).
Proof.
  destruct (ends_with_newline s) eqn:E.
  - apply ends_with_newline_true in E. destruct E as [s' ->].
    rewrite chomp_snoc_nl, split_lines_snoc_nl. intros H.
    now apply Forall_app in H.
  - now rewrite chomp_no_newline.
Qed.

End Lines.

(** ** The trim loop *)

Section TrimLoop.

(** One [getline]: the line it stores is the first line of the text, the
    stream gets shorter, and what is left holds the other lines. *)
Lemma read_line_spec (in_ : std_string) :
  in_ <> [] ->
  length (snd (read_line in_)) < length in_ /\
  split_lines (chomp in_) =
    fst (read_line in_)
      :: match snd (read_line in_) with
         | [] => []
         | _ :: _ => split_lines (chomp (snd (read_line in_)))
         end.
Proof.
  induction in_ as [|c r IH]; [congruence|]. intros _. simpl read_line.
  destruct (Ascii.eqb c nl) eqn:Ec.
  - apply Ascii.eqb_eq in Ec. subst c. simpl fst; simpl snd.
    split; [simpl; lia|]. destruct r as [|a r']; [reflexivity|].
    rewrite chomp_cons by discriminate. reflexivity.
  - destruct r as [|a r'].
    + simpl. split; [lia|]. unfold chomp. rewrite back_cons, Ec.
      simpl. now rewrite Ec.
    + destruct IH as [Hlen Hsplit]; [discriminate|].
      destruct (read_line (a :: r')) as [line rest] eqn:Er.
      simpl fst in *; simpl snd in *. split; [simpl in *; lia|].
      rewrite chomp_cons by discriminate.
      change (split_lines (c :: chomp (a :: r')))
        with (if Ascii.eqb c nl then [] :: split_lines (chomp (a :: r'))
              else match split_lines (chomp (a :: r')) with
                   | [] => [[c]]
                   | l :: ls => (c :: l) :: ls
                   end).
      rewrite Ec, Hsplit. reflexivity.
Qed.

Lemma trim_loop_spec (fuel : nat) :
  forall (in_ out : std_string) (first : bool),
    length in_ < fuel ->
    trim_loop fuel in_ out first =
    Some match in_ with
         | [] => out
         | _ :: _ =>
             (if first then out else out ++ [nl])
               ++ join_lines (map rtrim_copy (split_lines (chomp in_)))
         end.
Proof.
  induction fuel as [|fuel IH]; intros in_ out first Hlen; [lia|].
  destruct in_ as [|c r]; [reflexivity|].
  destruct (@read_line_spec (c :: r)) as [Hshort Hsplit]; [discriminate|].
  cbn [trim_loop getline].
  destruct (read_line (c :: r)) as [line rest] eqn:Er.
  simpl fst in *; simpl snd in *.
  rewrite IH by (simpl in *; lia).
  rewrite Hsplit. f_equal. rewrite map_cons, join_lines_cons.
  destruct rest as [|a rest'].
  - simpl map. now rewrite app_nil_r.
  - set (tl := split_lines (chomp (a :: rest'))).
    pose proof (split_lines_not_nil (chomp (a :: rest'))) as Hn.
    fold tl in Hn. destruct tl as [|l ls]; [congruence|].
    simpl map. rewrite <- !app_assoc. reflexivity.
Qed.

(** The loop always comes to its end within the turns [trim_branch]
    gives it. *)
Lemma trim_loop_total (text : std_string) :
  exists out, trim_loop (S (length text)) text [] true = Some out.
Proof. rewrite trim_loop_spec by lia. eauto. Qed.

Lemma trim_branch_spec (text : std_string) :
  trim_branch text =
  join_lines (map rtrim_copy (split_lines (chomp text))).
Proof.
  unfold trim_branch. rewrite trim_loop_spec by lia.
  destruct text; reflexivity.
Qed.

Lemma trim_branch_lines (text : std_string) :
  split_lines (trim_branch text) =
  map rtrim_copy (split_lines (chomp text)).
Proof.
  rewrite trim_branch_spec. apply split_join.
  - pose proof (split_lines_not_nil (chomp text)).
    destruct (split_lines (chomp text)); [congruence|discriminate].
  - apply Forall_map.
    eapply Forall_impl; [|apply split_lines_no_newline].
    intros l. apply rtrim_copy_no_newline.
Qed.

(** A text whose lines carry no white space at their end only loses its
    last newline. *)
Lemma trim_branch_trimmed (text : std_string) :
  Forall (fun l => rtrim_copy l = l) (split_lines text) ->
  trim_branch text = chomp text.
Proof.
  intros H. apply split_lines_chomp in H. rewrite trim_branch_spec.
  rewrite <- (join_split (chomp text)) at 2. f_equal.
  induction H as [|l ls Hl _ IH]; [reflexivity|].
  simpl. now rewrite Hl, IH.
Qed.

Lemma trim_branch_is_trimmed (text : std_string) :
  Forall (fun l => rtrim_copy l = l) (split_lines (trim_branch text)).
Proof.
  rewrite trim_branch_lines. apply Forall_map, Forall_forall.
  intros l _. apply rtrim_copy_idempotent.
Qed.

Lemma trim_twice (text : std_string) :
  trim_branch (trim_branch text) = chomp (trim_branch text).
Proof. apply trim_branch_trimmed, trim_branch_is_trimmed. Qed.

End TrimLoop.

(** ** Save-time fixes *)

Section SaveFixes.

Lemma newline_branch_spec (t : std_string) :
  newline_branch t = if ends_with_newline t then t else t ++ [nl].
Proof.
  unfold newline_branch, ends_with_newline.
  destruct (back t) as [c|]; reflexivity.
Qed.

Lemma newline_branch_ends (t : std_string) :
  ends_with_newline (newline_branch t) = true.
Proof.
  rewrite newline_branch_spec. destruct (ends_with_newline t) eqn:E;
    [exact E|apply ends_with_newline_snoc].
Qed.

Lemma chomp_newline_branch (t : std_string) :
  chomp (newline_branch t) = chomp t.
Proof.
  rewrite newline_branch_spec. destruct (ends_with_newline t) eqn:E;
    [reflexivity|]. now rewrite chomp_snoc_nl, chomp_no_newline.
Qed.

(** After a trim, the newline fix keeps every line trimmed. *)
Lemma save_fixes_is_trimmed (t : std_string) :
  Forall (fun l => rtrim_copy l = l) (split_lines (save_fixes t)).
Proof.
  unfold save_fixes, apply_save_fixes. rewrite newline_branch_spec.
  destruct (ends_with_newline (trim_branch t)).
  - apply trim_branch_is_trimmed.
  - rewrite split_lines_snoc_nl. apply Forall_app. split.
    + apply trim_branch_is_trimmed.
    + now constructor.
Qed.

Lemma save_fixes_twice (t : std_string) :
  save_fixes (save_fixes t) = newline_branch (chomp (trim_branch t)).
Proof.
  change (save_fixes (save_fixes t))
    with (newline_branch (trim_branch (save_fixes t))).
  rewrite trim_branch_trimmed by apply save_fixes_is_trimmed.
  unfold save_fixes, apply_save_fixes.
  now rewrite chomp_newline_branch.
Qed.

End SaveFixes.

(** C6, as the code has it: [ensureTrailingNewline] leaves a text that ends
    with a newline as it is and appends one newline to every other text, the
    empty text included; the result never ends with a newline it did not
    need. *)
Theorem ensureTrailingNewline_spec (t : std_string) :
  ((exists t', t = t' ++ [nl]) -> ensureTrailingNewline t = t) /\
  ((forall t', t <> t' ++ [nl]) -> ensureTrailingNewline t = t ++ [nl]).
Proof.
  unfold ensureTrailingNewline, apply_save_fixes.
  rewrite newline_branch_spec. split.
  - intros [t' ->]. now rewrite ends_with_newline_snoc.
  - intros Hno. destruct (ends_with_newline t) eqn:E; [|reflexivity].
    apply ends_with_newline_true in E. destruct E as [t' Ht].
    now destruct (Hno t').
Qed.

Lemma ensureTrailingNewline_spec_witness :
  ensureTrailingNewline (lit "ab" ++ [nl]) = lit "ab" ++ [nl] /\
  ensureTrailingNewline (lit "ab") = lit "ab" ++ [nl] /\
  ensureTrailingNewline [] = [nl].
Proof.
  split; [|split].
  - apply (proj1 (ensureTrailingNewline_spec (lit "ab" ++ [nl]))).
    exists (lit "ab"). reflexivity.
  - apply (proj2 (ensureTrailingNewline_spec (lit "ab"))).
    intros t' H. apply (f_equal (@rev ascii)) in H.
    rewrite rev_unit in H. discriminate.
  - apply (proj2 (ensureTrailingNewline_spec [])).
    intros t' H. now destruct t'.
Defined.

(** C6, counterexample: the empty text does not stay as it is. *)
Lemma ensureTrailingNewline_empty_changes :
  ensureTrailingNewline [] <> [].
Proof. discriminate. Qed.

(** C7, as the code has it: the lines of [trimTrailingWhitespace t] are the
    lines of [t] without its last newline, in the same order and each
    without the white space at its end, joined by newlines; the text of the
    scenario comes out as stated. *)
Theorem trimTrailingWhitespace_lines (t : std_string) :
  trimTrailingWhitespace t =
    join_lines (map rtrim_copy (split_lines (chomp t))) /\
  split_lines (trimTrailingWhitespace t) =
    map rtrim_copy (split_lines (chomp t)) /\
  length (split_lines (trimTrailingWhitespace t)) =
    length (split_lines (chomp t)) /\
  trimTrailingWhitespace
    (lit "a " ++ [nl] ++ lit "b" ++ [tab; nl] ++ lit "c") =
    lit "a" ++ [nl] ++ lit "b" ++ [nl] ++ lit "c".
Proof.
  unfold trimTrailingWhitespace, apply_save_fixes.
  split; [apply trim_branch_spec|].
  split; [apply trim_branch_lines|].
  split; [|reflexivity].
  now rewrite trim_branch_lines, length_map.
Qed.

(** C7, counterexample: a text that ends with a newline loses a line. *)
Lemma trimTrailingWhitespace_drops_line :
  length (split_lines (trimTrailingWhitespace (lit "a" ++ [nl]))) <>
  length (split_lines (lit "a" ++ [nl])).
Proof. vm_compute. discriminate. Qed.

(** C8, as far as the code goes: the fixes are functions of the text;
    [ensureTrailingNewline] twice is [ensureTrailingNewline] once; a second
    trim changes nothing when the first did not leave a newline at the end,
    and a second run of both fixes changes nothing when the trim did not
    leave two. *)
Theorem save_fixes_idempotent (t : std_string) :
  ensureTrailingNewline (ensureTrailingNewline t) = ensureTrailingNewline t /\
  (ends_with_newline (trimTrailingWhitespace t) = false ->
   trimTrailingWhitespace (trimTrailingWhitespace t) =
     trimTrailingWhitespace t) /\
  (ends_with_newline (chomp (trimTrailingWhitespace t)) = false ->
   save_fixes (save_fixes t) = save_fixes t).
Proof.
  split; [|split].
  - unfold ensureTrailingNewline, apply_save_fixes.
    rewrite (newline_branch_spec (newline_branch t)).
    now rewrite newline_branch_ends.
  - unfold trimTrailingWhitespace, apply_save_fixes. intros H.
    rewrite trim_twice. now apply chomp_no_newline.
  - change (trimTrailingWhitespace t) with (trim_branch t).
    intros H. rewrite save_fixes_twice.
    unfold save_fixes, apply_save_fixes.
    rewrite !newline_branch_spec, H.
    destruct (ends_with_newline (trim_branch t)) eqn:E.
    + apply ends_with_newline_true in E. destruct E as [o Ho].
      rewrite Ho. now rewrite chomp_snoc_nl.
    + rewrite chomp_no_newline by exact E. reflexivity.
Qed.

Lemma save_fixes_idempotent_witness :
  ensureTrailingNewline (ensureTrailingNewline (lit "a " ++ [nl] ++ lit "b"))
    = ensureTrailingNewline (lit "a " ++ [nl] ++ lit "b") /\
  trimTrailingWhitespace (trimTrailingWhitespace (lit "a " ++ [nl] ++ lit "b"))
    = trimTrailingWhitespace (lit "a " ++ [nl] ++ lit "b") /\
  save_fixes (save_fixes (lit "a " ++ [nl] ++ lit "b"))
    = save_fixes (lit "a " ++ [nl] ++ lit "b").
Proof.
  destruct (save_fixes_idempotent (lit "a " ++ [nl] ++ lit "b"))
    as (H1 & H2 & H3).
  split; [exact H1|]. split; [apply H2|apply H3]; reflexivity.
Defined.

(** C8, counterexample: with two empty lines at the end, a second trim and
    a second run of both fixes each take one more line away. *)
Lemma save_fixes_not_idempotent :
  trimTrailingWhitespace (trimTrailingWhitespace (lit "a" ++ [nl; nl; nl]))
    <> trimTrailingWhitespace (lit "a" ++ [nl; nl; nl]) /\
  save_fixes (save_fixes (lit "a" ++ [nl; nl; nl]))
    <> save_fixes (lit "a" ++ [nl; nl; nl]).
Proof. vm_compute. split; discriminate. Qed.

(** ** Occurrences of the search text *)

Section Occurrences.

Lemma starts_with_length (pat t : utf8_text) :
  starts_with pat t = true -> length pat <= length t.
Proof.
  revert t. induction pat as [|p pat IH]; intros t H; [simpl; lia|].
  destruct t as [|c t]; [discriminate|]. simpl in *.
  apply andb_true_iff in H. destruct H as [_ H]. apply IH in H. lia.
Qed.

Lemma occurs_at_inside (pat t : utf8_text) (i : nat) :
  occurs_at pat t i = true ->
  pat <> [] /\ 0 < length pat /\ i + length pat <= length t.
Proof.
  unfold occurs_at. destruct pat as [|p pat]; [discriminate|].
  intros H. apply starts_with_length in H. rewrite length_skipn in H.
  simpl in *. repeat split; [discriminate|lia|lia].
Qed.

Lemma In_occurrences_from (pat t : utf8_text) :
  forall from s,
    In s (occurrences_from pat t from) <->
    from <= s /\ s - from < length t
    /\ starts_with pat (skipn (s - from) t) = true.
Proof.
  induction t as [|c t IH]; intros from s; simpl occurrences_from.
  - split; [intros []|]. simpl. lia.
  - rewrite in_app_iff, IH. split.
    + intros [H|(Hle & Hlt & Hs)].
      * destruct (starts_with pat (c :: t)) eqn:E; [|destruct H].
        destruct H as [<-|[]]. rewrite Nat.sub_diag. simpl length.
        repeat split; [lia|lia|exact E].
      * replace (s - from) with (S (s - S from)) by lia.
        simpl length. repeat split; [lia|lia|exact Hs].
    + intros (Hle & Hlt & Hs).
      destruct (Nat.eq_dec s from) as [->|Hne].
      * left. rewrite Nat.sub_diag in Hs. simpl in Hs. rewrite Hs.
        now left.
      * right. replace (s - from) with (S (s - S from)) in Hs by lia.
        simpl length in Hlt. repeat split; [lia|lia|exact Hs].
Qed.

Lemma In_occurrences (pat t : utf8_text) (s : nat) :
  In s (occurrences pat t) <-> occurs_at pat t s = true.
Proof.
  unfold occurrences, occurs_at. destruct pat as [|p pat].
  - split; [intros []|discriminate].
  - rewrite In_occurrences_from, Nat.sub_0_r. split.
    + now intros (_ & _ & H).
    + intros H. repeat split; [lia| |exact H].
      pose proof (starts_with_length _ _ H) as Hl.
      rewrite length_skipn in Hl. simpl in Hl. lia.
Qed.

Lemma filter_nil_iff (A : Type) (f : A -> bool) (l : list A) :
  filter f l = [] <-> forall x, In x l -> f x = false.
Proof.
  induction l as [|a l IH]; simpl.
  - split; [intros _ x []|reflexivity].
  - destruct (f a) eqn:E.
    + split; [discriminate|]. intros H. specialize (H a (or_introl eq_refl)).
      congruence.
    + rewrite IH. split.
      * intros H x [<-|Hx]; [exact E|now apply H].
      * intros H x Hx. apply H. now right.
Qed.

(** What a forward search finds is an occurrence at or behind [iter]. *)
Lemma forward_some (pat : utf8_text) (b : TextBuffer) (iter s e : nat) :
  gtk_source_search_context_forward pat b iter = Some (s, e) ->
  iter <= s /\ e = s + length pat /\ occurs_at pat (text b) s = true.
Proof.
  unfold gtk_source_search_context_forward.
  destruct (filter _ _) as [|x l] eqn:E; [discriminate|].
  intros [= <- <-].
  assert (Hin : In x (filter (fun s => iter <=? s)
                             (occurrences pat (text b))))
    by (rewrite E; now left).
  apply filter_In in Hin. destruct Hin as [Hin Hle].
  apply Nat.leb_le in Hle. apply In_occurrences in Hin. auto.
Qed.

(** It finds nothing exactly when nothing occurs at or behind [iter]. *)
Lemma forward_none (pat : utf8_text) (b : TextBuffer) (iter : nat) :
  gtk_source_search_context_forward pat b iter = None <->
  forall s, iter <= s -> occurs_at pat (text b) s = false.
Proof.
  unfold gtk_source_search_context_forward.
  destruct (filter _ _) as [|x l] eqn:E.
  - split; [intros _|reflexivity]. intros s Hs.
    destruct (occurs_at pat (text b) s) eqn:Eo; [|reflexivity].
    apply In_occurrences in Eo.
    apply (proj1 (filter_nil_iff _ _) E) in Eo.
    apply Nat.leb_gt in Eo. lia.
  - split; [discriminate|]. intros H.
    assert (Hin : In x (filter (fun s => iter <=? s)
                               (occurrences pat (text b))))
      by (rewrite E; now left).
    apply filter_In in Hin. destruct Hin as [Hin Hle].
    apply Nat.leb_le in Hle. apply In_occurrences in Hin.
    rewrite (H x Hle) in Hin. discriminate.
Qed.

Lemma backward_some (pat : utf8_text) (b : TextBuffer) (iter s e : nat) :
  gtk_source_search_context_backward pat b iter = Some (s, e) ->
  e <= iter /\ e = s + length pat /\ occurs_at pat (text b) s = true.
Proof.
  unfold gtk_source_search_context_backward.
  destruct (rev (filter _ _)) as [|x l] eqn:E; [discriminate|].
  intros [= <- <-].
  assert (Hin : In x (filter (fun s => s + length pat <=? iter)
                             (occurrences pat (text b)))).
  { apply in_rev. rewrite E. now left. }
  apply filter_In in Hin. destruct Hin as [Hin Hle].
  apply Nat.leb_le in Hle. apply In_occurrences in Hin. auto.
Qed.




(** The occurrences are listed from left to right. *)
Lemma occurrences_from_sorted (pat t : utf8_text) :
  forall from, StronglySorted lt (occurrences_from pat t from).
Proof.
induction t as [|c t IH]; intros from; simpl; [constructor|].
assert (Hall : Forall (lt from) (occurrences_from pat t (S from))).
{ apply Forall_forall. intros s Hs. apply In_occurrences_from in Hs. lia. }
destruct (starts_with pat (c :: t)); simpl; [|apply IH].
constructor; [apply IH|exact Hall].
Qed.

Lemma filter_sorted (f : nat -> bool) (l : list nat) :
  StronglySorted lt l -> StronglySorted lt (filter f l).
Proof.
induction 1 as [|a l Hl IH Ha]; simpl; [constructor|].
destruct (f a); [|exact IH]. constructor; [exact IH|].
apply Forall_forall. intros x Hx. apply filter_In in Hx.
rewrite Forall_forall in Ha. now apply Ha.
Qed.

Lemma sorted_last (l : list nat) (x : nat) :
  StronglySorted lt (l ++ [x]) -> Forall (fun y => y < x) l.
Proof.
induction l as [|a l IH]; intros H; [constructor|].
simpl in H. inversion H as [|? ? Hs Ha]; subst. constructor.
- rewrite Forall_forall in Ha. apply Ha, in_or_app. right. now left.
- now apply IH.
Qed.

(** A forward search skips no occurrence between [iter] and what it
    finds. *)
Lemma forward_first (pat : utf8_text) (b : TextBuffer) (iter s e : nat) :
  gtk_source_search_context_forward pat b iter = Some (s, e) ->
  forall j, iter <= j -> j < s -> occurs_at pat (text b) j = false.
Proof.
unfold gtk_source_search_context_forward.
destruct (filter _ _) as [|x l] eqn:E; [discriminate|].
intros [= <- <-] j Hij Hjx.
destruct (occurs_at pat (text b) j) eqn:Ej; [|reflexivity].
assert (Hs : StronglySorted lt (x :: l)).
{ rewrite <- E. apply filter_sorted. unfold occurrences.
  destruct pat; [constructor|apply occurrences_from_sorted]. }
assert (Hin : In j (x :: l)).
{ rewrite <- E. apply filter_In. split; [now apply In_occurrences|].
  now apply Nat.leb_le. }
inversion Hs as [|? ? _ Hx]; subst. rewrite Forall_forall in Hx.
destruct Hin as [->|Hin]; [lia|]. apply Hx in Hin. lia.
Qed.

(** A backward search skips no occurrence between what it finds and
    [iter]. *)
Lemma backward_last (pat : utf8_text) (b : TextBuffer) (iter s e : nat) :
  gtk_source_search_context_backward pat b iter = Some (s, e) ->
  forall j, s < j -> j + length pat <= iter ->
            occurs_at pat (text b) j = false.
Proof.
unfold gtk_source_search_context_backward.
destruct (rev (filter _ _)) as [|x l] eqn:E; [discriminate|].
intros [= <- <-] j Hxj Hji.
destruct (occurs_at pat (text b) j) eqn:Ej; [|reflexivity].
apply (f_equal (@rev nat)) in E. rewrite rev_involutive in E.
simpl in E.
assert (Hs : StronglySorted lt (rev l ++ [x])).
{ rewrite <- E. apply filter_sorted. unfold occurrences.
  destruct pat; [constructor|apply occurrences_from_sorted]. }
assert (Hin : In j (rev l ++ [x])).
{ rewrite <- E. apply filter_In. split; [now apply In_occurrences|].
  now apply Nat.leb_le. }
apply sorted_last in Hs. rewrite Forall_forall in Hs.
apply in_app_or in Hin. destruct Hin as [Hin|[->|[]]]; [|lia].
apply Hs in Hin. lia.
Qed.

End Occurrences.



(** ** Replace all *)

Section ReplaceAll.

Variable pat : utf8_text.
Variable repl : std_string.

Lemma length_insert_text (b : TextBuffer) (iter : nat) :
  length (text (fst (gtk_text_buffer_insert b iter repl))) =
  length (text b) + length (utf8_decode repl).
Proof.
  simpl. rewrite !length_app.
  rewrite <- (firstn_skipn iter (text b)) at 3. rewrite length_app. lia.
Qed.

Lemma length_delete_text (b : TextBuffer) (s e : nat) :
  s <= e -> e <= length (text b) ->
  length (text (fst (gtk_text_buffer_delete b s e))) + (e - s) =
  length (text b)
  /\ snd (gtk_text_buffer_delete b s e) = s.
Proof.
  intros Hse He. simpl.
  rewrite Nat.min_l, Nat.max_r by lia.
  rewrite length_app, length_firstn, length_skipn. lia.
Qed.

(** One turn of the loop: the match goes, the replacement comes, and the
    iterator ends up nearer to the end of the buffer than it was. *)
Lemma replace_step (b : TextBuffer) (iter mstart mend : nat) :
  gtk_source_search_context_forward pat b iter = Some (mstart, mend) ->
  let b1 := fst (gtk_text_buffer_delete b mstart mend) in
  let mstart1 := snd (gtk_text_buffer_delete b mstart mend) in
  let b2 := fst (gtk_text_buffer_insert b1 mstart1 repl) in
  let mstart2 := snd (gtk_text_buffer_insert b1 mstart1 repl) in
  let iter' := gtk_text_iter_forward_chars b2 mstart2 (length repl) in
  length (text b2) + length pat =
    length (text b) + length (utf8_decode repl)
  /\ length (text b2) - iter' < length (text b) - iter.
Proof.
  intros Hf. apply forward_some in Hf. destruct Hf as (Hle & -> & Hocc).
  apply occurs_at_inside in Hocc. destruct Hocc as (_ & Hpos & Hin).
  intros b1 mstart1 b2 mstart2 iter'.
  destruct (@length_delete_text b mstart (mstart + length pat))
    as [Hd1 Hd2]; [lia|lia|].
  fold b1 in Hd1. fold mstart1 in Hd2.
  pose proof (length_insert_text b1 mstart1) as Hi. fold b2 in Hi.
  assert (Hm2 : mstart2 = mstart1 + length (utf8_decode repl))
    by reflexivity.
  unfold iter', gtk_text_iter_forward_chars. lia.
Qed.

Lemma replace_all_loop_unfold (fuel : nat) (b : TextBuffer) (iter : nat)
    (count : Z) :
  replace_all_loop (S fuel) pat repl b iter count =
  match gtk_source_search_context_forward pat b iter with
  | None => Some (b, count)
  | Some (mstart, mend) =>
      let b1 := fst (gtk_text_buffer_delete b mstart mend) in
      let mstart1 := snd (gtk_text_buffer_delete b mstart mend) in
      let b2 := fst (gtk_text_buffer_insert b1 mstart1 repl) in
      let mstart2 := snd (gtk_text_buffer_insert b1 mstart1 repl) in
      replace_all_loop fuel pat repl b2
        (gtk_text_iter_forward_chars b2 mstart2 (length repl))
        (count + 1)%Z
  end.
Proof.
  simpl. destruct (gtk_source_search_context_forward pat b iter)
    as [[mstart mend]|]; reflexivity.
Qed.

(** The loop ends: it needs no more turns than there are characters
    between the iterator and the end of the buffer, and one more. *)
Lemma replace_all_loop_total (fuel : nat) :
  forall (b : TextBuffer) (iter : nat) (count : Z),
    length (text b) - iter < fuel ->
    exists r, replace_all_loop fuel pat repl b iter count = Some r.
Proof.
  induction fuel as [|fuel IH]; intros b iter count Hlt; [lia|].
  rewrite replace_all_loop_unfold.
  destruct (gtk_source_search_context_forward pat b iter)
    as [[mstart mend]|] eqn:Ef; [|eauto].
  pose proof (replace_step _ _ Ef) as [_ Hdec]. cbv zeta in *.
  apply IH. lia.
Qed.

(** [count] goes up by one for every match that is replaced. *)
Lemma replace_all_loop_count (fuel : nat) :
  forall (b : TextBuffer) (iter : nat) (count : Z) (b' : TextBuffer)
         (count' : Z),
    replace_all_loop fuel pat repl b iter count = Some (b', count') ->
    (count <= count')%Z /\
    (Z.of_nat (length (text b'))
       + (count' - count) * Z.of_nat (length pat) =
     Z.of_nat (length (text b))
       + (count' - count) * Z.of_nat (length (utf8_decode repl)))%Z /\
    (gtk_source_search_context_forward pat b iter <> None ->
     (count < count')%Z).
Proof.
  induction fuel as [|fuel IH]; intros b iter count b' count' H;
    [discriminate|].
  rewrite replace_all_loop_unfold in H.
  destruct (gtk_source_search_context_forward pat b iter)
    as [[mstart mend]|] eqn:Ef.
  - pose proof (replace_step _ _ Ef) as [Hlen _]. cbv zeta in *.
    apply IH in H. destruct H as (Hle & Heq & _).
    split; [lia|]. split; [nia|]. intros _. lia.
  - injection H as <- <-. split; [lia|]. split; [lia|congruence].
Qed.

Lemma replace_all_eq (b : TextBuffer) :
  replace_all_loop (S (length (text b))) pat repl b 0 0%Z =
  Some (replace_all pat repl b).
Proof.
  unfold replace_all, gtk_text_buffer_get_start_iter.
  destruct (@replace_all_loop_total (S (length (text b))) b 0 0%Z)
    as [r Hr]; [lia|]. now rewrite Hr.
Qed.

End ReplaceAll.

(** C1, on the scenario of the specification: replacing ["a"] by ["aa"] in
    ["aaa"] ends after ONE replacement with ["aaaa"].  After the insertion [mstart]
    already stands behind the new text, and [iter] is moved on from there by
    the size of the replacement, past the two characters that were still to
    be searched. *)
Theorem search_replace_all_aaa :
  replace_all_loop 4 (utf8_decode (lit "a")) (lit "aa")
    (gtk_text_buffer_set_text (lit "aaa")) 0 0%Z
  = Some (gtk_text_buffer_set_text (lit "aaaa"), 1%Z)
  /\ text (fst (replace_all (utf8_decode (lit "a")) (lit "aa")
                  (gtk_text_buffer_set_text (lit "aaa"))))
     = utf8_decode (lit "aaaa")
  /\ snd (replace_all (utf8_decode (lit "a")) (lit "aa")
            (gtk_text_buffer_set_text (lit "aaa"))) = 1%Z.
Proof. repeat split. Qed.

(** The loop ends with the buffer and its [count], which went up by one
    for every replaced match: the text has lost [count] times the search
    text and gained [count] times the replacement.  With an empty search
    text, or one that occurs nowhere, [count] is [0] and the buffer is as
    it was; otherwise [count] is positive. *)
Lemma replace_all_count_facts
    (pat : utf8_text) (repl : std_string) (b : TextBuffer) :
  (pat = [] -> replace_all pat repl b = (b, 0%Z)) /\
  ((forall i, occurs_at pat (text b) i = false) ->
   replace_all pat repl b = (b, 0%Z)) /\
  ((exists i, occurs_at pat (text b) i = true) ->
   (0 < snd (replace_all pat repl b))%Z) /\
  (0 <= snd (replace_all pat repl b))%Z /\
  (Z.of_nat (length (text (fst (replace_all pat repl b))))
     + snd (replace_all pat repl b) * Z.of_nat (length pat) =
   Z.of_nat (length (text b))
     + snd (replace_all pat repl b)
       * Z.of_nat (length (utf8_decode repl)))%Z.
Proof.
  assert (Hnone : (forall i, occurs_at pat (text b) i = false) ->
                  replace_all pat repl b = (b, 0%Z)).
  { intros Hno. unfold replace_all. simpl.
    replace (gtk_source_search_context_forward pat b
               (gtk_text_buffer_get_start_iter b)) with (@None (nat * nat));
      [reflexivity|].
    symmetry. apply forward_none. intros s _. apply Hno. }
  pose proof (replace_all_eq pat repl b) as Heq.
  destruct (replace_all pat repl b) as [b' c'] eqn:Er.
  apply replace_all_loop_count in Heq. destruct Heq as (Hle & Hlen & Hpos).
  split; [|split; [|split; [|split]]].
  - intros ->. apply Hnone. reflexivity.
  - exact Hnone.
  - intros [i Hi]. simpl. cut (0 < c')%Z; [lia|]. apply Hpos.
    intros Hn. rewrite forward_none in Hn. rewrite Hn in Hi by lia.
    discriminate.
  - simpl. lia.
  - simpl. rewrite Z.sub_0_r in Hlen. exact Hlen.
Qed.

(** ** The file monitor protocol *)

Section Monitor.

Lemma set_suppress_monitor_once_same (e : Editor) :
  set_suppress_monitor_once (suppress_monitor_once_ e) e = e.
Proof. now destruct e. Qed.

Lemma set_suppress_monitor_once_twice (x y : bool) (e : Editor) :
  set_suppress_monitor_once x (set_suppress_monitor_once y e) =
  set_suppress_monitor_once x e.
Proof. reflexivity. Qed.

Lemma reconciler_watching (e : Editor) (path : std_string) (m : N) :
  reconciler e = Watching path m ->
  file_monitor_ e = Some path /\ suppress_monitor_once_ e = false
  /\ file_mtime_utc_us_ e = m.
Proof.
  unfold reconciler. destruct (file_monitor_ e); [|discriminate].
  destruct (suppress_monitor_once_ e); [discriminate|].
  now intros [= -> ->].
Qed.

(** The handler on a suppressed editor that shows a file: whatever the
    event, the flag is cleared and nothing else happens. *)
Lemma handler_suppressed (w : World) (ev : GFileMonitorEvent)
    (e : Editor) :
  current_file_ e <> [] -> suppress_monitor_once_ e = true ->
  s_on_file_monitor_changed w ev e =
  (Ignore, set_suppress_monitor_once false e, []).
Proof.
  intros Hf Hs. unfold s_on_file_monitor_changed.
  destruct (current_file_ e); [congruence|]. now rewrite Hs.
Qed.

(** The handler on an editor that is not suppressed, up to the point
    where a change is detected. *)
Lemma handler_detects (w : World) (ev : GFileMonitorEvent) (e : Editor) :
  current_file_ e <> [] -> suppress_monitor_once_ e = false ->
  passes_event_filter ev = true ->
  get_file_mtime_us (query_info w) <> 0%N ->
  get_file_mtime_us (query_info w) <> file_mtime_utc_us_ e ->
  s_on_file_monitor_changed w ev e =
  let self1 := set_file_mtime (get_file_mtime_us (query_info w)) e in
  if modified_ e then
    if reload_answer w then
      (ExternalChangeDetected,
       fst (open_file_from_path w (current_file_ e) self1),
       ReloadDialog :: snd (open_file_from_path w (current_file_ e) self1))
    else (ExternalChangeDetected, self1, [ReloadDialog])
  else
    (ExternalChangeDetected,
     fst (open_file_from_path w (current_file_ e) self1),
     snd (open_file_from_path w (current_file_ e) self1)).
Proof.
  intros Hf Hs Hev H0 Hm. unfold s_on_file_monitor_changed.
  destruct (current_file_ e) as [|c p] eqn:Ef; [congruence|].
  rewrite Hs, Hev. simpl negb. cbv iota.
  apply N.eqb_neq in H0, Hm. rewrite H0, Hm. cbv zeta.
  change (modified_ (set_file_mtime _ e)) with (modified_ e).
  change (current_file_ (set_file_mtime _ e)) with (current_file_ e).
  rewrite Ef. unfold confirm_reload_external.
  destruct (modified_ e); [destruct (reload_answer w)|];
    try reflexivity;
    now destruct (open_file_from_path w (c :: p) _).
Qed.

(** Opening the file that is shown keeps its path. *)
Lemma open_file_from_path_current_file (w : World) (e : Editor) :
  current_file_ (fst (open_file_from_path w (current_file_ e) e))
  = current_file_ e.
Proof.
  unfold open_file_from_path, maybe_confirm_discard, install_file_monitor.
  destruct e as [b f m st fm t s cli]. simpl.
  destruct cli, m, (discard_answer w), (file_contents w); simpl;
    try reflexivity;
    destruct f; try reflexivity; now destruct (monitor_ok w).
Qed.

End Monitor.

(** C3, as the code has it: from [Watching(path, m0)], [markOwnWrite] and
    then a notification, whatever the event and whatever the file's mtime
    is by then, give [Ignore] without any dialog, clear the suppression and
    leave the editor in [Watching(path, m0)]: the handler does not touch
    [file_mtime_utc_us_] on this path.  It is [save_file] that sets it, to
    the mtime it reads right after a successful write. *)
Theorem own_write_notification_ignored
    (w w' : World) (ev : GFileMonitorEvent) (e : Editor)
    (path : std_string) (m0 : N) :
  current_file_ e = path -> path <> [] ->
  reconciler e = Watching path m0 ->
  s_on_file_monitor_changed w ev (markOwnWrite e) = (Ignore, e, []) /\
  reconciler (markOwnWrite e) = SuppressedOnce path m0 /\
  reconciler (snd (fst (s_on_file_monitor_changed w ev (markOwnWrite e))))
    = Watching path m0 /\
  reconciler
    (snd (fst (s_on_file_monitor_changed w ev (save_file w' e))))
    = Watching path (if write_ok w'
                     then get_file_mtime_us (query_info_after w')
                     else m0).
Proof.
  intros Hp Hne Hw. pose proof (reconciler_watching _ Hw) as (Hm & Hs & Ht).
  assert (H1 : s_on_file_monitor_changed w ev (markOwnWrite e)
               = (Ignore, e, [])).
  { rewrite handler_suppressed; [|simpl; congruence|reflexivity].
    unfold markOwnWrite. rewrite set_suppress_monitor_once_twice.
    rewrite <- Hs at 1. now rewrite set_suppress_monitor_once_same. }
  split; [exact H1|]. split; [|split].
  - unfold reconciler, markOwnWrite. simpl. now rewrite Hm, Ht.
  - now rewrite H1.
  - rewrite handler_suppressed.
    + unfold reconciler, save_file, markOwnWrite.
      destruct (write_ok w'); simpl; now rewrite Hm, ?Ht.
    + unfold save_file. destruct (write_ok w'); simpl; congruence.
    + unfold save_file. now destruct (write_ok w').
Qed.

(** C3, counterexample: the file's mtime at the notification (7 seconds)
    does not become the last known one (5 seconds). *)
Lemma own_write_notification_keeps_mtime :
  reconciler
    (snd (fst (s_on_file_monitor_changed
                 (mkWorld (Some 7%N) false false ReadError true None true)
                 G_FILE_MONITOR_EVENT_CHANGED
                 (markOwnWrite
                    (mkEditor (gtk_text_buffer_set_text []) (lit "f") false
                              [] (Some (lit "f")) 5000000 false false)))))
  <> Watching (lit "f")
       (get_file_mtime_us
          (query_info
             (mkWorld (Some 7%N) false false ReadError true None true))).
Proof. vm_compute. discriminate. Qed.

Lemma own_write_notification_ignored_witness :
  s_on_file_monitor_changed
    (mkWorld (Some 7%N) false false ReadError true None true)
    G_FILE_MONITOR_EVENT_CHANGED
    (markOwnWrite
       (mkEditor (gtk_text_buffer_set_text []) (lit "f") false
                 [] (Some (lit "f")) 5000000 false false))
  = (Ignore,
     mkEditor (gtk_text_buffer_set_text []) (lit "f") false
              [] (Some (lit "f")) 5000000 false false,
     []).
Proof.
  apply (proj1 (@own_write_notification_ignored
                  (mkWorld (Some 7%N) false false ReadError true None true)
                  (mkWorld (Some 7%N) false false ReadError true None true)
                  G_FILE_MONITOR_EVENT_CHANGED
                  (mkEditor (gtk_text_buffer_set_text []) (lit "f") false
                            [] (Some (lit "f")) 5000000 false false)
                  (lit "f") 5000000%N eq_refl ltac:(discriminate) eq_refl)).
Defined.

(** C9: while the editor is watching, a notification that finds the file
    not to be queried (mtime [0]) or to have the last known mtime gives
    [Ignore], runs no dialog and leaves the whole editor, path, monitor and
    mtime included, as it was.  The handler never changes the path of the
    file shown, and a file that cannot be queried never costs the
    monitor. *)
Theorem unchanged_mtime_ignored
    (w : World) (ev : GFileMonitorEvent) (e : Editor) :
  (suppress_monitor_once_ e = false ->
   query_info w = None
   \/ get_file_mtime_us (query_info w) = 0%N
   \/ get_file_mtime_us (query_info w) = file_mtime_utc_us_ e ->
   s_on_file_monitor_changed w ev e = (Ignore, e, [])) /\
  (get_file_mtime_us (query_info w) = 0%N ->
   file_monitor_ (snd (fst (s_on_file_monitor_changed w ev e)))
     = file_monitor_ e
   /\ file_mtime_utc_us_ (snd (fst (s_on_file_monitor_changed w ev e)))
     = file_mtime_utc_us_ e) /\
  current_file_ (snd (fst (s_on_file_monitor_changed w ev e)))
    = current_file_ e.
Proof.
  split; [|split].
  - intros Hs Hq.
    assert (Hq' : get_file_mtime_us (query_info w) = 0%N
                  \/ get_file_mtime_us (query_info w) = file_mtime_utc_us_ e).
    { destruct Hq as [Hq|[Hq|Hq]]; [left; now rewrite Hq|now left|now right]. }
    unfold s_on_file_monitor_changed.
    destruct (current_file_ e); [reflexivity|]. rewrite Hs.
    destruct (passes_event_filter ev); [|reflexivity]. simpl negb. cbv iota.
    destruct Hq' as [->| ->]; [reflexivity|].
    rewrite N.eqb_refl. now destruct (_ =? 0)%N.
  - intros H0. unfold s_on_file_monitor_changed.
    destruct (current_file_ e); [now split|].
    destruct (suppress_monitor_once_ e); [now split|].
    destruct (passes_event_filter ev); [|now split]. simpl negb. cbv iota.
    rewrite H0. now split.
  - unfold s_on_file_monitor_changed.
    destruct (current_file_ e) as [|c p] eqn:Ef; [exact Ef|].
    destruct (suppress_monitor_once_ e); [exact Ef|].
    destruct (passes_event_filter ev); [|exact Ef]. simpl negb. cbv iota.
    destruct (_ =? 0)%N; [exact Ef|].
    destruct (_ =? file_mtime_utc_us_ e)%N; [exact Ef|]. cbv zeta.
    change (modified_ (set_file_mtime _ e)) with (modified_ e).
    change (current_file_ (set_file_mtime _ e)) with (current_file_ e).
    rewrite Ef. unfold confirm_reload_external.
    pose proof (open_file_from_path_current_file w
                  (set_file_mtime (get_file_mtime_us (query_info w)) e))
      as Ho.
    change (current_file_ (set_file_mtime _ e)) with (current_file_ e) in Ho.
    rewrite Ef in Ho.
    destruct (open_file_from_path w (c :: p) _) as [e' d'].
    destruct (modified_ e); [destruct (reload_answer w)|];
      simpl in *; congruence.
Qed.

Lemma unchanged_mtime_ignored_witness :
  s_on_file_monitor_changed
    (mkWorld None true true (ReadOk (lit "x")) true None true)
    G_FILE_MONITOR_EVENT_CHANGED
    (mkEditor (gtk_text_buffer_set_text (lit "ab")) (lit "f") true
              [] (Some (lit "f")) 5000000 false false)
  = (Ignore,
     mkEditor (gtk_text_buffer_set_text (lit "ab")) (lit "f") true
              [] (Some (lit "f")) 5000000 false false,
     []) /\
  s_on_file_monitor_changed
    (mkWorld (Some 5%N) true true (ReadOk (lit "x")) true None true)
    G_FILE_MONITOR_EVENT_CHANGED
    (mkEditor (gtk_text_buffer_set_text (lit "ab")) (lit "f") true
              [] (Some (lit "f")) 5000000 false false)
  = (Ignore,
     mkEditor (gtk_text_buffer_set_text (lit "ab")) (lit "f") true
              [] (Some (lit "f")) 5000000 false false,
     []).
Proof.
  split.
  - apply (proj1 (unchanged_mtime_ignored
                    (mkWorld None true true (ReadOk (lit "x")) true None true)
                    G_FILE_MONITOR_EVENT_CHANGED
                    (mkEditor (gtk_text_buffer_set_text (lit "ab")) (lit "f")
                       true [] (Some (lit "f")) 5000000 false false)));
      [reflexivity|left; reflexivity].
  - apply (proj1 (unchanged_mtime_ignored
                    (mkWorld (Some 5%N) true true (ReadOk (lit "x")) true
                       None true)
                    G_FILE_MONITOR_EVENT_CHANGED
                    (mkEditor (gtk_text_buffer_set_text (lit "ab")) (lit "f")
                       true [] (Some (lit "f")) 5000000 false false)));
      [reflexivity|right; right; reflexivity].
Defined.

(** C4: when the handler detects an external change (the editor shows a
    file and is not suppressed, the event passes the filter, the file's
    mtime is not [0] and not the last known one), then
    - with unsaved changes it first runs the reload dialog, and unless the
      answer is "_Reload" the buffer and its modified flag stay as they
      were: only the last known mtime moves on;
    - without unsaved changes it runs no dialog at all and goes straight to
      [open_file_from_path], which, when the file can be read, puts the
      file's contents in the buffer and leaves it unmodified. *)
Theorem external_change_asks_before_reload
    (w : World) (ev : GFileMonitorEvent) (e : Editor) :
  current_file_ e <> [] -> suppress_monitor_once_ e = false ->
  passes_event_filter ev = true ->
  get_file_mtime_us (query_info w) <> 0%N ->
  get_file_mtime_us (query_info w) <> file_mtime_utc_us_ e ->
  fst (fst (s_on_file_monitor_changed w ev e)) = ExternalChangeDetected /\
  (modified_ e = true ->
   (exists shown,
       snd (s_on_file_monitor_changed w ev e) = ReloadDialog :: shown) /\
   (reload_answer w = false ->
    s_on_file_monitor_changed w ev e =
      (ExternalChangeDetected,
       set_file_mtime (get_file_mtime_us (query_info w)) e,
       [ReloadDialog])) /\
   (buffer_ (snd (fst (s_on_file_monitor_changed w ev e))) <> buffer_ e ->
    reload_answer w = true)) /\
  (modified_ e = false ->
   snd (s_on_file_monitor_changed w ev e) = [] /\
   snd (fst (s_on_file_monitor_changed w ev e)) =
     fst (open_file_from_path w (current_file_ e)
            (set_file_mtime (get_file_mtime_us (query_info w)) e)) /\
   (forall contents, file_contents w = ReadOk contents ->
      text (buffer_ (snd (fst (s_on_file_monitor_changed w ev e))))
        = utf8_decode contents
      /\ modified_ (snd (fst (s_on_file_monitor_changed w ev e))) = false)).
Proof.
  intros Hf Hs Hev H0 Hm. rewrite (@handler_detects w ev e Hf Hs Hev H0 Hm).
  cbv zeta. split; [|split].
  - destruct (modified_ e); [destruct (reload_answer w)|]; reflexivity.
  - intros ->. split; [|split].
    + destruct (reload_answer w); simpl; eauto.
    + now intros ->.
    + destruct (reload_answer w); [reflexivity|]. simpl. congruence.
  - intros Hmod. rewrite Hmod.
    assert (Hopen : forall e1, modified_ e1 = false ->
              snd (open_file_from_path w (current_file_ e) e1) = [] /\
              forall contents, file_contents w = ReadOk contents ->
                text (buffer_ (fst (open_file_from_path w (current_file_ e) e1)))
                  = utf8_decode contents
                /\ modified_ (fst (open_file_from_path w (current_file_ e) e1))
                   = false).
    { intros e1 He1. unfold open_file_from_path. rewrite He1, andb_false_r.
      simpl negb. cbv iota. split.
      - now destruct (file_contents w).
      - intros contents ->. unfold install_file_monitor. simpl.
        destruct (current_file_ e); [now split|].
        destruct (monitor_ok w); now split. }
    destruct (Hopen (set_file_mtime (get_file_mtime_us (query_info w)) e) Hmod)
      as [Hd Hc].
    split; [exact Hd|]. split; [reflexivity|exact Hc].
Qed.

Lemma external_change_asks_before_reload_witness :
  s_on_file_monitor_changed
    (mkWorld (Some 7%N) false true (ReadOk (lit "x")) true (Some 7%N) true)
    G_FILE_MONITOR_EVENT_CHANGED
    (mkEditor (gtk_text_buffer_set_text (lit "ab")) (lit "f") true
              [] (Some (lit "f")) 5000000 false false)
  = (ExternalChangeDetected,
     mkEditor (gtk_text_buffer_set_text (lit "ab")) (lit "f") true
              [] (Some (lit "f")) 7000000 false false,
     [ReloadDialog]) /\
  snd (s_on_file_monitor_changed
         (mkWorld (Some 7%N) false true (ReadOk (lit "x")) true (Some 7%N)
            true)
         G_FILE_MONITOR_EVENT_CHANGED
         (mkEditor (gtk_text_buffer_set_text (lit "ab")) (lit "f") false
                   [] (Some (lit "f")) 5000000 false false)) = [].
Proof.
  split.
  - apply (proj1 (proj2 (proj1 (proj2
      (@external_change_asks_before_reload
         (mkWorld (Some 7%N) false true (ReadOk (lit "x")) true (Some 7%N)
            true)
         G_FILE_MONITOR_EVENT_CHANGED
         (mkEditor (gtk_text_buffer_set_text (lit "ab")) (lit "f") true
                   [] (Some (lit "f")) 5000000 false false)
         ltac:(discriminate) eq_refl eq_refl ltac:(discriminate)
         ltac:(discriminate))) eq_refl))).
    reflexivity.
  - apply (proj1 (proj2 (proj2
      (@external_change_asks_before_reload
         (mkWorld (Some 7%N) false true (ReadOk (lit "x")) true (Some 7%N)
            true)
         G_FILE_MONITOR_EVENT_CHANGED
         (mkEditor (gtk_text_buffer_set_text (lit "ab")) (lit "f") false
                   [] (Some (lit "f")) 5000000 false false)
         ltac:(discriminate) eq_refl eq_refl ltac:(discriminate)
         ltac:(discriminate))) eq_refl)).
Defined.

(** C10: on an editor that shows a file, the suppression is used up by the
    next event whatever its type, also one that the filter would drop: the
    handler clears the flag, returns and does nothing else.  The event
    after that is handled as usual: dropped when it does not pass the
    filter, and taken as an external change when it does and the file's
    mtime is neither [0] nor the last known one. *)
Theorem suppression_consumed_by_any_event
    (w w' : World) (ev ev' : GFileMonitorEvent) (e : Editor) :
  current_file_ e <> [] -> suppress_monitor_once_ e = true ->
  s_on_file_monitor_changed w ev e
    = (Ignore, set_suppress_monitor_once false e, []) /\
  (passes_event_filter ev' = false ->
   s_on_file_monitor_changed w' ev' (set_suppress_monitor_once false e)
     = (Ignore, set_suppress_monitor_once false e, [])) /\
  (passes_event_filter ev' = true ->
   get_file_mtime_us (query_info w') <> 0%N ->
   get_file_mtime_us (query_info w') <> file_mtime_utc_us_ e ->
   fst (fst (s_on_file_monitor_changed w' ev'
               (set_suppress_monitor_once false e)))
     = ExternalChangeDetected).
Proof.
  intros Hf Hs. split; [now apply handler_suppressed|]. split.
  - intros Hev. unfold s_on_file_monitor_changed. simpl.
    destruct (current_file_ e); [reflexivity|]. now rewrite Hev.
  - intros Hev H0 Hm.
    rewrite handler_detects; [|exact Hf|reflexivity|exact Hev|exact H0|exact Hm].
    cbv zeta. simpl modified_.
    destruct (modified_ e); [destruct (reload_answer w')|]; reflexivity.
Qed.

Lemma suppression_consumed_by_any_event_witness :
  s_on_file_monitor_changed
    (mkWorld (Some 7%N) true true (ReadOk (lit "x")) true (Some 7%N) true)
    G_FILE_MONITOR_EVENT_DELETED
    (mkEditor (gtk_text_buffer_set_text (lit "ab")) (lit "f") false
              [] (Some (lit "f")) 5000000 true false)
  = (Ignore,
     mkEditor (gtk_text_buffer_set_text (lit "ab")) (lit "f") false
              [] (Some (lit "f")) 5000000 false false,
     []) /\
  fst (fst (s_on_file_monitor_changed
              (mkWorld (Some 7%N) true true (ReadOk (lit "x")) true
                 (Some 7%N) true)
              G_FILE_MONITOR_EVENT_CHANGED
              (mkEditor (gtk_text_buffer_set_text (lit "ab")) (lit "f") false
                        [] (Some (lit "f")) 5000000 false false)))
  = ExternalChangeDetected.
Proof.
  destruct (@suppression_consumed_by_any_event
              (mkWorld (Some 7%N) true true (ReadOk (lit "x")) true
                 (Some 7%N) true)
              (mkWorld (Some 7%N) true true (ReadOk (lit "x")) true
                 (Some 7%N) true)
              G_FILE_MONITOR_EVENT_DELETED G_FILE_MONITOR_EVENT_CHANGED
              (mkEditor (gtk_text_buffer_set_text (lit "ab")) (lit "f") false
                        [] (Some (lit "f")) 5000000 true false)
              ltac:(discriminate) eq_refl) as (H1 & _ & H3).
  split; [exact H1|]. apply H3; [reflexivity|discriminate|discriminate].
Defined.

(** * More of the editor *)

(** ** Paths *)

Section Paths.

Variable set : ascii -> bool.

Lemma find_last_of_none (s : std_string) :
  find_last_of set s = None <-> forallb (fun c => negb (set c)) s = true.
Proof.
induction s as [|c s IH]; simpl; [tauto|].
destruct (find_last_of set s) as [pos|].
- split; [discriminate|]. intros H. apply andb_true_iff in H.
  destruct H as [_ H]. apply IH in H. discriminate.
- destruct (set c); simpl; [split; discriminate|].
  split; intros _; [now apply IH|reflexivity].
Qed.

Lemma find_last_of_app (dir name : std_string) (c : ascii) :
  set c = true -> forallb (fun x => negb (set x)) name = true ->
  find_last_of set (dir ++ c :: name) = Some (length dir).
Proof.
intros Hc Hn. apply find_last_of_none in Hn.
induction dir as [|d dir IH]; simpl.
- now rewrite Hn, Hc.
- now rewrite IH.
Qed.

Lemma find_last_of_some (s : std_string) (pos : nat) :
  find_last_of set s = Some pos ->
  exists dir c name,
    s = dir ++ c :: name /\ length dir = pos /\ set c = true
    /\ forallb (fun x => negb (set x)) name = true.
Proof.
revert pos. induction s as [|c s IH]; intros pos; simpl; [discriminate|].
destruct (find_last_of set s) as [q|] eqn:E.
- intros [= <-]. destruct (IH q eq_refl) as (dir & d & name & -> & <- & Hd & Hn).
  exists (c :: dir), d, name. repeat split; assumption.
- destruct (set c) eqn:Ec; [|discriminate]. intros [= <-].
  exists [], c, s. repeat split; [assumption|]. now apply find_last_of_none.
Qed.

End Paths.

(** X1: a path without a separator has the directory ["."] and is its own
    base name; a path [dir ++ c :: name] whose last separator is [c] has
    the base name [name] and the directory [dir], or ["/"] when [dir] is
    empty (also when [c] is a backslash). *)
Theorem dirname_basename_split (dir name : std_string) (c : ascii) :
  forallb (fun x => negb (is_path_separator x)) name = true ->
  (dirname_of name = lit "." /\ basename_of name = name) /\
  (is_path_separator c = true ->
   basename_of (dir ++ c :: name) = name /\
   dirname_of (dir ++ c :: name) =
     match dir with [] => lit "/" | _ :: _ => dir end).
Proof.
intros Hn. split.
- unfold dirname_of, basename_of.
  now rewrite (proj2 (find_last_of_none is_path_separator name) Hn).
- intros Hc. unfold dirname_of, basename_of.
  rewrite (find_last_of_app is_path_separator dir name c Hc Hn). split.
  + replace (dir ++ c :: name) with ((dir ++ [c]) ++ name)
      by (now rewrite <- app_assoc).
    replace (length dir + 1) with (length (dir ++ [c]))
      by (rewrite length_app; simpl; lia).
    now rewrite skipn_app, skipn_all, Nat.sub_diag.
  + destruct dir as [|d dir]; [reflexivity|].
    cbn [length]. change (S (length dir)) with (length (d :: dir)).
    rewrite firstn_app, firstn_all, Nat.sub_diag. simpl.
    now rewrite app_nil_r.
Qed.

Lemma dirname_basename_split_witness :
  (dirname_of (lit "a.txt") = lit "." /\
   basename_of (lit "a.txt") = lit "a.txt") /\
  basename_of (lit "/home/u" ++ "/"%char :: lit "a.txt") = lit "a.txt" /\
  dirname_of (lit "/home/u" ++ "/"%char :: lit "a.txt") = lit "/home/u".
Proof.
destruct (@dirname_basename_split (lit "/home/u") (lit "a.txt") "/"%char
            eq_refl) as [H1 H2].
split; [exact H1|]. apply H2. reflexivity.
Defined.

(** X2: whatever the path, [dirname_of] never gives an empty directory,
    and [basename_of] gives an end of the path that holds no separator. *)
Theorem dirname_basename_shape (p : std_string) :
  dirname_of p <> [] /\
  forallb (fun x => negb (is_path_separator x)) (basename_of p) = true /\
  exists front, p = front ++ basename_of p.
Proof.
unfold dirname_of, basename_of.
destruct (find_last_of is_path_separator p) as [pos|] eqn:E.
- apply find_last_of_some in E.
  destruct E as (dir & c & name & -> & <- & Hc & Hn).
  assert (Hs : skipn (length dir + 1) (dir ++ c :: name) = name).
  { replace (dir ++ c :: name) with ((dir ++ [c]) ++ name)
      by (now rewrite <- app_assoc).
    replace (length dir + 1) with (length (dir ++ [c]))
      by (rewrite length_app; simpl; lia).
    now rewrite skipn_app, skipn_all, Nat.sub_diag. }
  rewrite Hs. split; [|split; [exact Hn|]].
  + destruct dir as [|d dir]; [discriminate|].
    cbn [length]. simpl. discriminate.
  + exists (dir ++ [c]). now rewrite <- app_assoc.
- split; [discriminate|]. split; [now apply find_last_of_none|].
  now exists [].
Qed.

(** ** The language of a file name *)

Section Language.

Lemma tolower_idempotent (c : ascii) : tolower (tolower c) = tolower c.
Proof.
destruct c as [[] [] [] [] [] [] [] []]; reflexivity.
Qed.

Lemma tolower_dot (c : ascii) :
  Ascii.eqb "."%char (tolower c) = Ascii.eqb "."%char c.
Proof.
destruct c as [[] [] [] [] [] [] [] []]; reflexivity.
Qed.

Lemma to_lower_idempotent (s : std_string) :
  to_lower (to_lower s) = to_lower s.
Proof.
unfold to_lower. rewrite map_map. apply map_ext, tolower_idempotent.
Qed.

Lemma to_lower_no_dot (s : std_string) :
  forallb (fun x => negb (Ascii.eqb "."%char x)) (to_lower s) =
  forallb (fun x => negb (Ascii.eqb "."%char x)) s.
Proof.
unfold to_lower. induction s as [|c s IH]; [reflexivity|].
cbn [map forallb]. now rewrite tolower_dot, IH.
Qed.

Lemma extension_of_app (base ext : std_string) :
  ext <> [] ->
  forallb (fun x => negb (Ascii.eqb "."%char x)) ext = true ->
  extension_of (base ++ "."%char :: ext) = to_lower ext.
Proof.
intros Hne Hnd. unfold extension_of.
rewrite (find_last_of_app (Ascii.eqb "."%char) base ext "."%char eq_refl Hnd).
assert (Hlt : (length base + 1 <? length (base ++ "."%char :: ext)) = true).
{ apply Nat.ltb_lt. rewrite length_app. destruct ext; [congruence|].
  simpl. lia. }
rewrite Hlt. f_equal.
replace (base ++ "."%char :: ext) with ((base ++ ["."%char]) ++ ext)
  by (now rewrite <- app_assoc).
replace (length base + 1) with (length (base ++ ["."%char]))
  by (rewrite length_app; simpl; lia).
now rewrite skipn_app, skipn_all, Nat.sub_diag.
Qed.

End Language.

(** X3: the language depends on what follows the last ['.'] only, and not
    on its case: for a non-empty extension without a ['.'], the language
    of [base.ext] is that of the extension in lower case, whatever [base]
    is, and writing the extension in lower case changes nothing.  A name
    without a ['.'], or with nothing behind the last one, has no
    language. *)
Theorem lang_id_by_extension (base ext : std_string) :
  forallb (fun x => negb (Ascii.eqb "."%char x)) ext = true ->
  (ext <> [] ->
   lang_id_for_filename (base ++ "."%char :: ext)
     = lang_id_of_extension (to_lower ext) /\
   lang_id_for_filename (base ++ "."%char :: to_lower ext)
     = lang_id_for_filename (base ++ "."%char :: ext)) /\
  lang_id_for_filename ext = [] /\
  lang_id_for_filename (base ++ ["."%char]) = [].
Proof.
intros Hnd. split; [|split].
- intros Hne. unfold lang_id_for_filename.
  rewrite (extension_of_app base Hne Hnd). split; [reflexivity|].
  rewrite extension_of_app.
  + now rewrite to_lower_idempotent.
  + destruct ext; [congruence|discriminate].
  + now rewrite to_lower_no_dot.
- unfold lang_id_for_filename, extension_of.
  now rewrite (proj2 (find_last_of_none (Ascii.eqb "."%char) ext) Hnd).
- unfold lang_id_for_filename, extension_of.
  rewrite (find_last_of_app (Ascii.eqb "."%char) base [] "."%char eq_refl
             eq_refl).
  replace (length base + 1 <? length (base ++ ["."%char])) with false;
    [reflexivity|].
  symmetry. apply Nat.ltb_ge. rewrite length_app. simpl. lia.
Qed.

Lemma lang_id_by_extension_witness :
  lang_id_for_filename (lit "/src/Main" ++ "."%char :: lit "CPP") = lit "cpp"
  /\ lang_id_for_filename (lit "/src/Main" ++ "."%char :: lit "cpp")
     = lang_id_for_filename (lit "/src/Main" ++ "."%char :: lit "CPP").
Proof.
destruct (@lang_id_by_extension (lit "/src/Main") (lit "CPP") eq_refl)
  as [H _].
destruct (H ltac:(discriminate)) as [H1 H2]. split; [|exact H2].
rewrite H1. reflexivity.
Defined.

(** ** Zoom and keys *)

Section Zoom.

Lemma zoom_set_range (pt : Z) (p : Prefs) :
  (7 <= font_pt_ (zoom_set pt p) <= 32)%Z.
Proof.
unfold zoom_set. simpl.
destruct (pt <? 7)%Z eqn:E1; [simpl; lia|].
apply Z.ltb_ge in E1. destruct (pt >? 32)%Z eqn:E2; [lia|].
rewrite Z.gtb_ltb in E2. apply Z.ltb_ge in E2. lia.
Qed.

Lemma zoom_set_in_range (pt : Z) (p : Prefs) :
  (7 <= pt <= 32)%Z -> zoom_set pt p = set_font_pt pt p.
Proof.
intros H. unfold zoom_set.
replace (pt <? 7)%Z with false by (symmetry; apply Z.ltb_ge; lia).
replace (pt >? 32)%Z with false; [reflexivity|].
symmetry. rewrite Z.gtb_ltb. apply Z.ltb_ge. lia.
Qed.

Lemma search_find_next_keeps (backwards : bool) (e : Editor) :
  text (buffer_ (search_find_next backwards e)) = text (buffer_ e)
  /\ modified_ (search_find_next backwards e) = modified_ e
  /\ current_file_ (search_find_next backwards e) = current_file_ e
  /\ search_text_ (search_find_next backwards e) = search_text_ e.
Proof.
unfold search_find_next.
destruct (find_next_match (search_text_ e) (buffer_ e) backwards)
  as [[s t]|]; repeat split.
Qed.

End Zoom.

(** X4: the font size stays between 7 and 32 points: [zoom_set] puts it
    there whatever it is asked for, and no run of zoom steps, of whatever
    sizes, takes it out again; the other preferences are not touched. *)
Theorem zoom_keeps_font_in_range (pt : Z) (deltas : list Z) (p : Prefs) :
  (7 <= font_pt_ (fold_left (fun q d => zoom_step d q) deltas
                    (zoom_set pt p)) <= 32)%Z /\
  tab_width_ (fold_left (fun q d => zoom_step d q) deltas (zoom_set pt p))
    = tab_width_ p /\
  trim_ws_on_save_
    (fold_left (fun q d => zoom_step d q) deltas (zoom_set pt p))
    = trim_ws_on_save_ p /\
  ensure_newline_eof_
    (fold_left (fun q d => zoom_step d q) deltas (zoom_set pt p))
    = ensure_newline_eof_ p.
Proof.
assert (H : forall q,
  (7 <= font_pt_ q <= 32)%Z ->
  (7 <= font_pt_ (fold_left (fun q d => zoom_step d q) deltas q) <= 32)%Z /\
  tab_width_ (fold_left (fun q d => zoom_step d q) deltas q) = tab_width_ q /\
  trim_ws_on_save_ (fold_left (fun q d => zoom_step d q) deltas q)
    = trim_ws_on_save_ q /\
  ensure_newline_eof_ (fold_left (fun q d => zoom_step d q) deltas q)
    = ensure_newline_eof_ q).
{ induction deltas as [|d ds IH]; intros q Hq; [now repeat split|].
  simpl fold_left.
  destruct (IH (zoom_step d q) (zoom_set_range _ _)) as (H1 & H2 & H3 & H4).
  split; [exact H1|]. split; [exact H2|]. split; [exact H3|exact H4]. }
apply (H (zoom_set pt p)), zoom_set_range.
Qed.

(** X5: inside the range a zoom step moves the font size by exactly its
    amount, so that zooming in and then out (or out and then in) gives the
    preferences back; at 32 points zooming in changes nothing, and at 7
    points zooming out changes nothing. *)
Theorem zoom_step_inverse (p : Prefs) :
  ((7 <= font_pt_ p < 32)%Z ->
   font_pt_ (zoom_step 1 p) = (font_pt_ p + 1)%Z /\
   zoom_step (-1) (zoom_step 1 p) = p) /\
  ((7 < font_pt_ p <= 32)%Z ->
   font_pt_ (zoom_step (-1) p) = (font_pt_ p - 1)%Z /\
   zoom_step 1 (zoom_step (-1) p) = p) /\
  (font_pt_ p = 32%Z -> zoom_step 1 p = p) /\
  (font_pt_ p = 7%Z -> zoom_step (-1) p = p).
Proof.
destruct p as [tw nl_ tab_ pt]. cbn [font_pt_].
split; [|split; [|split]].
- intros H.
  assert (E : zoom_step 1 (mkPrefs tw nl_ tab_ pt)
              = set_font_pt (pt + 1) (mkPrefs tw nl_ tab_ pt)).
  { unfold zoom_step. cbn [font_pt_]. apply zoom_set_in_range. lia. }
  rewrite E. split; [reflexivity|]. unfold zoom_step.
  cbn [font_pt_ set_font_pt]. rewrite zoom_set_in_range by lia.
  unfold set_font_pt. cbn. f_equal. lia.
- intros H.
  assert (E : zoom_step (-1) (mkPrefs tw nl_ tab_ pt)
              = set_font_pt (pt - 1) (mkPrefs tw nl_ tab_ pt)).
  { unfold zoom_step. cbn [font_pt_]. apply zoom_set_in_range. lia. }
  rewrite E. split; [reflexivity|]. unfold zoom_step.
  cbn [font_pt_ set_font_pt]. rewrite zoom_set_in_range by lia.
  unfold set_font_pt. cbn. f_equal. lia.
- intros ->. reflexivity.
- intros ->. reflexivity.
Qed.

Lemma zoom_step_inverse_witness :
  zoom_step (-1) (zoom_step 1 default_prefs) = default_prefs /\
  zoom_step 1 (zoom_step (-1) default_prefs) = default_prefs /\
  zoom_step 1 (mkPrefs true true 4 32) = mkPrefs true true 4 32 /\
  zoom_step (-1) (mkPrefs true true 4 7) = mkPrefs true true 4 7.
Proof.
split; [|split; [|split]].
- apply (proj1 (zoom_step_inverse default_prefs)). simpl. lia.
- apply (proj1 (proj2 (zoom_step_inverse default_prefs))). simpl. lia.
- apply (proj1 (proj2 (proj2 (zoom_step_inverse (mkPrefs true true 4 32))))).
  reflexivity.
- apply (proj2 (proj2 (proj2 (zoom_step_inverse (mkPrefs true true 4 7))))).
  reflexivity.
Defined.

(** X6: [s_on_key_press] handles a key exactly when Control is held and
    the key is one of plus, equal, minus, 0, g and G; a key it does not
    handle changes nothing.  Whatever the key, the text of the buffer, the
    modified flag, the file name and the other preferences stay as they
    are, and a font size between 7 and 32 stays there. *)
Theorem key_press_effects (ctrl : bool) (keyval : N) (e : Editor)
    (p : Prefs) :
  (fst (s_on_key_press ctrl keyval (e, p)) = true <->
   ctrl = true /\
   In keyval [GDK_KEY_plus; GDK_KEY_equal; GDK_KEY_minus; GDK_KEY_0;
              GDK_KEY_g; GDK_KEY_G]) /\
  (fst (s_on_key_press ctrl keyval (e, p)) = false ->
   snd (s_on_key_press ctrl keyval (e, p)) = (e, p)) /\
  text (buffer_ (fst (snd (s_on_key_press ctrl keyval (e, p)))))
    = text (buffer_ e) /\
  modified_ (fst (snd (s_on_key_press ctrl keyval (e, p)))) = modified_ e /\
  current_file_ (fst (snd (s_on_key_press ctrl keyval (e, p))))
    = current_file_ e /\
  tab_width_ (snd (snd (s_on_key_press ctrl keyval (e, p)))) = tab_width_ p /\
  ((7 <= font_pt_ p <= 32)%Z ->
   (7 <= font_pt_ (snd (snd (s_on_key_press ctrl keyval (e, p)))) <= 32)%Z).
Proof.
pose proof (search_find_next_keeps false e) as (F1 & F2 & F3 & _).
pose proof (search_find_next_keeps true e) as (B1 & B2 & B3 & _).
unfold s_on_key_press.
destruct ctrl; simpl negb; cbv iota.
2:{ cbn [fst snd]. split; [split; [discriminate|intros [H _]; discriminate]|].
    repeat (split; [first [reflexivity|intros _; reflexivity]|]). auto. }
assert (Hin : forall k,
          In k [GDK_KEY_plus; GDK_KEY_equal; GDK_KEY_minus; GDK_KEY_0;
                GDK_KEY_g; GDK_KEY_G] <->
          k = GDK_KEY_plus \/ k = GDK_KEY_equal \/ k = GDK_KEY_minus
          \/ k = GDK_KEY_0 \/ k = GDK_KEY_g \/ k = GDK_KEY_G).
{ intros k. simpl. intuition congruence. }
rewrite Hin.
destruct (keyval =? GDK_KEY_plus)%N eqn:K1;
  [|destruct (keyval =? GDK_KEY_equal)%N eqn:K2]; cbn [orb]; cbv iota;
  [| |destruct (keyval =? GDK_KEY_minus)%N eqn:K3;
      [|destruct (keyval =? GDK_KEY_0)%N eqn:K4;
        [|destruct (keyval =? GDK_KEY_g)%N eqn:K5;
          [|destruct (keyval =? GDK_KEY_G)%N eqn:K6]]]];
  cbn [fst snd];
  rewrite ?N.eqb_eq, ?N.eqb_neq in *.
all: split; [split; [intros Hh; try discriminate; tauto
                    |intros [_ Hh]; try reflexivity; intuition congruence]|].
all: split; [intros Hh; try discriminate; reflexivity|].
all: repeat (split; [first [reflexivity|assumption]|]).
all: intros Hr; first [apply zoom_set_range|exact Hr].
Qed.

Lemma key_press_effects_witness :
  (7 <= font_pt_ (snd (snd (s_on_key_press true GDK_KEY_plus
                              (initial_editor, mkPrefs true true 4 32))))
     <= 32)%Z /\
  snd (s_on_key_press false GDK_KEY_plus (initial_editor, default_prefs))
    = (initial_editor, default_prefs).
Proof.
split.
- apply (key_press_effects true GDK_KEY_plus initial_editor
           (mkPrefs true true 4 32)). simpl. lia.
- apply (key_press_effects false GDK_KEY_plus initial_editor default_prefs).
  reflexivity.
Defined.

(** ** More on the save-time fixes *)

Section CleanLines.

(** A line that does not end with white space. *)
Lemma rtrim_copy_clean (l : std_string) :
  (forall c, back l = Some c -> is_space_char c = false) ->
  rtrim_copy l = l.
Proof.
destruct l as [|c l _] using rev_ind; [reflexivity|].
intros H. rewrite rtrim_copy_snoc, (H c (back_snoc l c)). reflexivity.
Qed.

Lemma rtrim_copy_length (l : std_string) :
  length (rtrim_copy l) <= length l.
Proof.
destruct (rtrim_copy_spec l) as (ws & Hl & _).
rewrite Hl at 2. rewrite length_app. lia.
Qed.

Lemma chomp_length (s : std_string) : length (chomp s) <= length s.
Proof.
destruct (ends_with_newline s) eqn:E.
- apply ends_with_newline_true in E. destruct E as [s' ->].
  rewrite chomp_snoc_nl, length_app. lia.
- now rewrite chomp_no_newline.
Qed.

Lemma join_lines_map_length (f : std_string -> std_string)
    (ls : list std_string) :
  (forall l, length (f l) <= length l) ->
  length (join_lines (map f ls)) <= length (join_lines ls).
Proof.
intros Hf. induction ls as [|l ls IH]; [reflexivity|].
rewrite map_cons, !join_lines_cons, !length_app.
pose proof (Hf l). destruct ls as [|l' ls']; [simpl; lia|].
rewrite map_cons in *. cbn [length]. lia.
Qed.

Lemma trim_branch_length (t : std_string) :
  length (trim_branch t) <= length t.
Proof.
rewrite trim_branch_spec.
pose proof (join_lines_map_length rtrim_copy (split_lines (chomp t))
              rtrim_copy_length) as H.
rewrite join_split in H. pose proof (chomp_length t). lia.
Qed.

Lemma clean_line_iff (l : std_string) :
  rtrim_copy l = l ->
  forall c, back l = Some c -> is_space_char c = false.
Proof.
intros H. rewrite <- H. destruct (rtrim_copy_spec l) as (_ & _ & _ & Hb).
exact Hb.
Qed.

End CleanLines.

(** X7: [rtrim_copy] removes the white space at the end and nothing else:
    of a string [t ++ ws], where [ws] is all white space and [t] does not
    end with white space, it leaves [t]. *)
Theorem rtrim_copy_removes_trailing_space (t ws : std_string) :
  forallb is_space_char ws = true ->
  (forall c, back t = Some c -> is_space_char c = false) ->
  rtrim_copy (t ++ ws) = t.
Proof.
intros Hws Ht. induction ws as [|c ws IH] using rev_ind.
- rewrite app_nil_r. now apply rtrim_copy_clean.
- rewrite forallb_app in Hws. apply andb_true_iff in Hws.
  destruct Hws as [Hws Hc]. simpl in Hc. rewrite andb_true_r in Hc.
  rewrite app_assoc, rtrim_copy_snoc, Hc. now apply IH.
Qed.

Lemma rtrim_copy_removes_trailing_space_witness :
  rtrim_copy (lit "a b" ++ [" "%char; tab; "013"%char]) = lit "a b".
Proof.
apply rtrim_copy_removes_trailing_space; [reflexivity|].
intros c H. injection H as <-. reflexivity.
Defined.

(** X8: what a save with both fixes writes always ends with a newline, has
    no line that ends with white space, and is at most one byte longer
    than the text; the trim on its own never makes the text longer. *)
Theorem save_fixes_output (t : std_string) :
  ends_with_newline (save_fixes t) = true /\
  Forall (fun l => forall c, back l = Some c -> is_space_char c = false)
         (split_lines (save_fixes t)) /\
  length (save_fixes t) <= length t + 1 /\
  length (trimTrailingWhitespace t) <= length t.
Proof.
split; [apply newline_branch_ends|]. split; [|split].
- eapply Forall_impl; [|apply save_fixes_is_trimmed].
  intros l. apply clean_line_iff.
- unfold save_fixes, apply_save_fixes. rewrite newline_branch_spec.
  pose proof (trim_branch_length t).
  destruct (ends_with_newline (trim_branch t)); [lia|].
  rewrite length_app. simpl. lia.
- apply trim_branch_length.
Qed.

(** X9: a text that needs no fixing is saved as it is: when no line of [t]
    ends with white space and [t] does not end with a newline, the trim
    leaves [t] alone, and both fixes leave [t] followed by one newline
    alone. *)
Theorem clean_text_saved_unchanged (t : std_string) :
  Forall (fun l => forall c, back l = Some c -> is_space_char c = false)
         (split_lines t) ->
  ends_with_newline t = false ->
  trimTrailingWhitespace t = t /\
  save_fixes (t ++ [nl]) = t ++ [nl] /\
  save_fixes t = t ++ [nl].
Proof.
intros Hclean Hend.
assert (Htrim : Forall (fun l => rtrim_copy l = l) (split_lines t)).
{ eapply Forall_impl; [|exact Hclean]. intros l. apply rtrim_copy_clean. }
assert (H1 : trim_branch t = t).
{ rewrite trim_branch_trimmed by exact Htrim. now apply chomp_no_newline. }
assert (H2 : trim_branch (t ++ [nl]) = t).
{ rewrite trim_branch_trimmed.
  - apply chomp_snoc_nl.
  - rewrite split_lines_snoc_nl. apply Forall_app. split; [exact Htrim|].
    now constructor. }
split; [exact H1|]. unfold save_fixes, apply_save_fixes.
rewrite H1, H2, newline_branch_spec, Hend. split; reflexivity.
Qed.

Lemma clean_text_saved_unchanged_witness :
  trimTrailingWhitespace (lit "a" ++ [nl] ++ lit " b") = lit "a" ++ [nl] ++ lit " b"
  /\ save_fixes ((lit "a" ++ [nl] ++ lit " b") ++ [nl])
     = (lit "a" ++ [nl] ++ lit " b") ++ [nl]
  /\ save_fixes (lit "a" ++ [nl] ++ lit " b")
     = (lit "a" ++ [nl] ++ lit " b") ++ [nl].
Proof.
apply clean_text_saved_unchanged; [|reflexivity].
repeat constructor; intros c H; injection H as <-; reflexivity.
Defined.

(** ** Files: new, open, reload, save as *)

Section FileOperations.

(** Whether [open_file_from_path] goes past its question. *)
Lemma open_file_from_path_declined (w : World) (path : std_string)
    (e : Editor) :
  opened_via_cli_ e = false -> modified_ e = true ->
  discard_answer w = false ->
  open_file_from_path w path e = (e, [DiscardDialog]).
Proof.
intros Hc Hm Ha. unfold open_file_from_path, maybe_confirm_discard.
now rewrite Hc, Hm, Ha.
Qed.

Lemma open_file_from_path_goes_on (w : World) (path : std_string)
    (e : Editor) :
  opened_via_cli_ e = true \/ modified_ e = false
  \/ discard_answer w = true ->
  open_file_from_path w path e =
  (match file_contents w with
   | ReadOk contents =>
       mark_modified false
         (install_file_monitor w path
            (set_current_file path
               (buffer_changed (gtk_text_buffer_set_text contents)
                  (set_suppress_monitor_once true e))))
   | ReadNoEnt =>
       mark_modified false
         (remove_file_monitor
            (set_current_file path
               (buffer_changed (gtk_text_buffer_set_text []) e)))
   | ReadError => e
   end,
   if negb (opened_via_cli_ e) && modified_ e then [DiscardDialog] else []).
Proof.
intros H. unfold open_file_from_path, maybe_confirm_discard.
destruct (opened_via_cli_ e), (modified_ e), (discard_answer w);
  simpl; try (destruct (file_contents w); reflexivity);
  destruct H as [H|[H|H]]; discriminate.
Qed.

Lemma open_file_from_path_read (w : World) (path : std_string)
    (e : Editor) (contents : std_string) :
  opened_via_cli_ e = true \/ modified_ e = false
  \/ discard_answer w = true ->
  file_contents w = ReadOk contents ->
  buffer_ (fst (open_file_from_path w path e))
    = gtk_text_buffer_set_text contents /\
  current_file_ (fst (open_file_from_path w path e)) = path /\
  modified_ (fst (open_file_from_path w path e)) = false /\
  suppress_monitor_once_ (fst (open_file_from_path w path e)) = true.
Proof.
intros Hgo Hr. rewrite (@open_file_from_path_goes_on w path e Hgo), Hr.
cbn [fst]. unfold install_file_monitor.
destruct path as [|c p]; simpl; [now repeat split|].
destruct (monitor_ok w); now repeat split.
Qed.

Lemma open_file_from_path_invariant (w : World) (path : std_string)
    (e : Editor) :
  monitor_on_current_file e ->
  monitor_on_current_file (fst (open_file_from_path w path e)).
Proof.
intros He. unfold open_file_from_path, maybe_confirm_discard.
destruct (negb (opened_via_cli_ e) && modified_ e);
  [destruct (negb (modified_ e)); [|destruct (discard_answer w)]|];
  simpl; try exact He;
  (destruct (file_contents w); [|exact I|exact He];
   unfold monitor_on_current_file, install_file_monitor; simpl;
   destruct path; [exact I|]; destruct (monitor_ok w); simpl;
   [split; [reflexivity|discriminate]|exact I]).
Qed.

Lemma set_opened_via_cli_invariant (b : bool) (e : Editor) :
  monitor_on_current_file e ->
  monitor_on_current_file (set_opened_via_cli b e).
Proof. intros H. exact H. Qed.

Lemma on_open_fold_invariant (files : list (option std_string * World)) :
  forall acc : Editor * list Dialog,
    monitor_on_current_file (fst acc) ->
    monitor_on_current_file
      (fst (fold_left
              (fun (acc : Editor * list Dialog)
                   (f : option std_string * World) =>
                 match fst f with
                 | None => acc
                 | Some path =>
                     let '(e1, shown) :=
                       open_file_from_path (snd f) path (fst acc) in
                     (e1, snd acc ++ shown)
                 end) files acc)).
Proof.
induction files as [|[[path|] w] files IH]; intros acc Hacc; simpl.
- exact Hacc.
- apply IH. pose proof (@open_file_from_path_invariant w path (fst acc) Hacc) as H.
  now destruct (open_file_from_path w path (fst acc)).
- now apply IH.
Qed.


Lemma handler_invariant (w : World) (ev : GFileMonitorEvent) (e : Editor) :
  monitor_on_current_file e ->
  monitor_on_current_file (snd (fst (s_on_file_monitor_changed w ev e))).
Proof.
intros He. unfold s_on_file_monitor_changed.
destruct (current_file_ e) as [|c p] eqn:Ef; [exact He|].
destruct (suppress_monitor_once_ e); [exact He|].
destruct (negb (passes_event_filter ev)); [exact He|].
destruct (_ =? 0)%N; [exact He|].
destruct (_ =? file_mtime_utc_us_ e)%N; [exact He|]. cbv zeta.
assert (H1 : monitor_on_current_file
               (set_file_mtime (get_file_mtime_us (query_info w)) e))
  by exact He.
pose proof (@open_file_from_path_invariant w
              (current_file_
                 (set_file_mtime (get_file_mtime_us (query_info w)) e)) _ H1)
  as Ho.
unfold confirm_reload_external.
destruct (open_file_from_path w _ _) as [e' d'].
destruct (modified_ _); [destruct (reload_answer w)|]; simpl; assumption.
Qed.

End FileOperations.

(** X10: the monitor, when there is one, is on the file the editor shows.
    Every file operation, every search operation and the monitor's own
    handler keep it that way. *)
Theorem monitor_stays_on_current_file
    (w w2 : World) (ev : GFileMonitorEvent) (path : std_string)
    (chosen : option std_string) (files : list (option std_string * World))
    (backwards : bool) (repl : std_string) (e : Editor) :
  monitor_on_current_file e ->
  monitor_on_current_file (fst (new_file w e)) /\
  monitor_on_current_file (fst (open_file_from_path w path e)) /\
  monitor_on_current_file (save_file w e) /\
  monitor_on_current_file (save_file_as w chosen e) /\
  monitor_on_current_file (snd (fst (s_on_file_monitor_changed w ev e))) /\
  monitor_on_current_file (fst (s_on_reload_activate w w2 e)) /\
  monitor_on_current_file (fst (s_on_recent_activated w chosen e)) /\
  monitor_on_current_file (fst (on_open files e)) /\
  monitor_on_current_file (search_find_next backwards e) /\
  monitor_on_current_file (search_replace_one repl e) /\
  monitor_on_current_file (search_replace_all repl e).
Proof.
intros He. repeat apply conj.
- unfold new_file, maybe_confirm_discard.
  destruct (negb (modified_ e)); [exact I|].
  destruct (discard_answer w); [exact I|exact He].
- now apply open_file_from_path_invariant.
- unfold save_file. destruct (write_ok w); exact He.
- unfold save_file_as. destruct chosen as [fn|]; [|exact He].
  destruct (write_ok w); [|exact He].
  unfold monitor_on_current_file, install_file_monitor. simpl.
  destruct fn; [exact I|]. destruct (monitor_ok w); simpl;
    [split; [reflexivity|discriminate]|exact I].
- now apply handler_invariant.
- unfold s_on_reload_activate. destruct (current_file_ e) eqn:Ef; [exact He|].
  pose proof (@open_file_from_path_invariant w2 (current_file_ e) e He) as Ho.
  rewrite Ef in Ho. unfold maybe_confirm_discard.
  destruct (open_file_from_path w2 _ e) as [e' d'].
  destruct (modified_ e); [destruct (discard_answer w)|]; simpl;
    assumption.
- unfold s_on_recent_activated. destruct chosen as [p|]; [|exact He].
  pose proof (@open_file_from_path_invariant w p _
                (@set_opened_via_cli_invariant true e He)) as Ho.
  now destruct (open_file_from_path w p _).
- unfold on_open.
  pose proof (@on_open_fold_invariant files (set_opened_via_cli true e, [])
                (@set_opened_via_cli_invariant true e He)) as Ho.
  now destruct (fold_left _ files _).
- unfold search_find_next.
  now destruct (find_next_match _ _ _) as [[s t]|].
- unfold search_replace_one.
  set (e1 := match gtk_text_buffer_get_selection_bounds (buffer_ e) with
             | Some _ => e
             | None => search_find_next false e
             end).
  assert (H1 : monitor_on_current_file e1).
  { unfold e1.
    destruct (gtk_text_buffer_get_selection_bounds (buffer_ e)); [exact He|].
    unfold search_find_next. now destruct (find_next_match _ _ _) as [[s t]|]. }
  destruct (gtk_text_buffer_get_selection_bounds (buffer_ e1))
    as [[s t]|]; [|exact H1].
  unfold gtk_text_buffer_delete, gtk_text_buffer_insert. exact H1.
- unfold search_replace_all.
  destruct (replace_all _ _ _) as [b c]. now destruct (0 <? c)%Z.
Qed.

Lemma monitor_stays_on_current_file_witness :
  monitor_on_current_file
    (fst (open_file_from_path
            (mkWorld None true true (ReadOk (lit "x")) true (Some 7%N) true)
            (lit "/a") initial_editor)).
Proof.
apply (@monitor_stays_on_current_file
         (mkWorld None true true (ReadOk (lit "x")) true (Some 7%N) true)
         (mkWorld None true true (ReadOk (lit "x")) true (Some 7%N) true)
         G_FILE_MONITOR_EVENT_CHANGED (lit "/a") None [] false []
         initial_editor I).
Defined.

(** X11: [new_file] asks only when there are unsaved changes, and leaves
    the editor alone when the answer is no.  Otherwise the editor ends
    with an empty unmodified buffer, no file name and no monitor, and
    every later monitor event is ignored without any effect. *)
Theorem new_file_outcomes (w : World) (e : Editor) :
  snd (new_file w e) = (if modified_ e then [DiscardDialog] else []) /\
  (modified_ e = true -> discard_answer w = false ->
   fst (new_file w e) = e) /\
  (modified_ e = false \/ discard_answer w = true ->
   text (buffer_ (fst (new_file w e))) = [] /\
   current_file_ (fst (new_file w e)) = [] /\
   modified_ (fst (new_file w e)) = false /\
   reconciler (fst (new_file w e)) = Unwatched /\
   forall w' ev,
     s_on_file_monitor_changed w' ev (fst (new_file w e))
       = (Ignore, fst (new_file w e), [])).
Proof.
unfold new_file, maybe_confirm_discard.
destruct (modified_ e) eqn:Em; simpl.
- destruct (discard_answer w) eqn:Ea; simpl.
  + split; [reflexivity|]. split; [discriminate|]. intros _.
    repeat split.
  + split; [reflexivity|]. split; [reflexivity|].
    intros [H|H]; discriminate.
- split; [reflexivity|]. split; [discriminate|]. intros _. repeat split.
Qed.

Lemma new_file_outcomes_witness :
  fst (new_file (mkWorld None true false ReadError true None true)
         (mkEditor (gtk_text_buffer_set_text (lit "ab")) (lit "f") true
                   [] (Some (lit "f")) 5 false false))
  = mkEditor (gtk_text_buffer_set_text (lit "ab")) (lit "f") true
             [] (Some (lit "f")) 5 false false
  /\ reconciler
       (fst (new_file (mkWorld None true true ReadError true None true)
               (mkEditor (gtk_text_buffer_set_text (lit "ab")) (lit "f") true
                         [] (Some (lit "f")) 5 false false)))
     = Unwatched.
Proof.
split.
- apply (new_file_outcomes (mkWorld None true false ReadError true None true)
           (mkEditor (gtk_text_buffer_set_text (lit "ab")) (lit "f") true
                     [] (Some (lit "f")) 5 false false)); reflexivity.
- apply (new_file_outcomes (mkWorld None true true ReadError true None true)
           (mkEditor (gtk_text_buffer_set_text (lit "ab")) (lit "f") true
                     [] (Some (lit "f")) 5 false false)).
  right. reflexivity.
Defined.

(** X12: what [open_file_from_path] ends with.  It asks only when the
    buffer is modified and the call does not come with [opened_via_cli_]
    set, and a "no" leaves the editor alone; so does a file that cannot be
    read for another reason than not being there.  A file that is read
    fills the buffer, which ends unmodified under the new name, with the
    suppression set, and watched from the mtime read at that moment when
    a monitor can be had (unwatched, with the old mtime, when not).  A
    file that is not there gives an empty unmodified buffer under that
    name, and no monitor. *)
Theorem open_file_from_path_outcomes (w : World) (path : std_string)
    (e : Editor) :
  snd (open_file_from_path w path e)
    = (if negb (opened_via_cli_ e) && modified_ e
       then [DiscardDialog] else []) /\
  (opened_via_cli_ e = false -> modified_ e = true ->
   discard_answer w = false -> fst (open_file_from_path w path e) = e) /\
  (file_contents w = ReadError -> fst (open_file_from_path w path e) = e) /\
  (opened_via_cli_ e = true \/ modified_ e = false
   \/ discard_answer w = true ->
   (forall contents, file_contents w = ReadOk contents ->
      buffer_ (fst (open_file_from_path w path e))
        = gtk_text_buffer_set_text contents /\
      current_file_ (fst (open_file_from_path w path e)) = path /\
      modified_ (fst (open_file_from_path w path e)) = false /\
      suppress_monitor_once_ (fst (open_file_from_path w path e)) = true /\
      (path <> [] -> monitor_ok w = true ->
       reconciler (fst (open_file_from_path w path e))
         = SuppressedOnce path (get_file_mtime_us (query_info_after w))) /\
      (monitor_ok w = false ->
       reconciler (fst (open_file_from_path w path e)) = Unwatched /\
       file_mtime_utc_us_ (fst (open_file_from_path w path e))
         = file_mtime_utc_us_ e)) /\
   (file_contents w = ReadNoEnt ->
      text (buffer_ (fst (open_file_from_path w path e))) = [] /\
      current_file_ (fst (open_file_from_path w path e)) = path /\
      modified_ (fst (open_file_from_path w path e)) = false /\
      reconciler (fst (open_file_from_path w path e)) = Unwatched)).
Proof.
split; [|split; [|split; [|]]].
- unfold open_file_from_path, maybe_confirm_discard.
  destruct (opened_via_cli_ e), (modified_ e), (discard_answer w); simpl;
    now destruct (file_contents w).
- intros Hc Hm Ha.
  now rewrite (@open_file_from_path_declined w path e Hc Hm Ha).
- intros Hr. unfold open_file_from_path, maybe_confirm_discard.
  destruct (opened_via_cli_ e), (modified_ e), (discard_answer w); simpl;
    now rewrite ?Hr.
- intros Hgo. rewrite (@open_file_from_path_goes_on w path e Hgo).
  cbn [fst]. split.
  + intros contents ->. unfold install_file_monitor, reconciler.
    destruct path as [|c p]; simpl.
    * repeat split; try reflexivity. intros H; congruence.
    * destruct (monitor_ok w); simpl; repeat split;
        try reflexivity; try discriminate.
  + intros ->. repeat split.
Qed.

Lemma open_file_from_path_outcomes_witness :
  fst (open_file_from_path
         (mkWorld None true false (ReadOk (lit "x")) true (Some 7%N) true)
         (lit "/a")
         (mkEditor (gtk_text_buffer_set_text (lit "ab")) (lit "f") true
                   [] (Some (lit "f")) 5 false false))
  = mkEditor (gtk_text_buffer_set_text (lit "ab")) (lit "f") true
             [] (Some (lit "f")) 5 false false
  /\ reconciler
       (fst (open_file_from_path
               (mkWorld None true true (ReadOk (lit "x")) true (Some 7%N) true)
               (lit "/a") initial_editor))
     = SuppressedOnce (lit "/a") 7000000.
Proof.
split.
- apply (proj1 (proj2 (open_file_from_path_outcomes
           (mkWorld None true false (ReadOk (lit "x")) true (Some 7%N) true)
           (lit "/a")
           (mkEditor (gtk_text_buffer_set_text (lit "ab")) (lit "f") true
                     [] (Some (lit "f")) 5 false false)))); reflexivity.
- destruct (open_file_from_path_outcomes
              (mkWorld None true true (ReadOk (lit "x")) true (Some 7%N) true)
              (lit "/a") initial_editor) as (_ & _ & _ & H).
  destruct (H (or_intror (or_introl eq_refl))) as [H1 _].
  destruct (H1 (lit "x") eq_refl) as (_ & _ & _ & _ & H2 & _).
  apply H2; [discriminate|reflexivity].
Defined.

(** X13: once a file has been opened and read, the next event of the
    monitor is dropped, whatever its type and whatever the file's mtime is
    by then: the handler only clears the suppression, and the buffer keeps
    what was read. *)
Theorem first_event_after_open_dropped
    (w w' : World) (ev : GFileMonitorEvent) (path contents : std_string)
    (e : Editor) :
  path <> [] -> file_contents w = ReadOk contents ->
  opened_via_cli_ e = true \/ modified_ e = false
  \/ discard_answer w = true ->
  s_on_file_monitor_changed w' ev (fst (open_file_from_path w path e))
    = (Ignore,
       set_suppress_monitor_once false (fst (open_file_from_path w path e)),
       []) /\
  buffer_ (snd (fst (s_on_file_monitor_changed w' ev
                       (fst (open_file_from_path w path e)))))
    = gtk_text_buffer_set_text contents.
Proof.
intros Hp Hr Hgo.
destruct (@open_file_from_path_read w path e contents Hgo Hr)
  as (Hb & Hf & _ & Hs).
rewrite handler_suppressed; [|congruence|exact Hs].
split; [reflexivity|exact Hb].
Qed.

Lemma first_event_after_open_dropped_witness :
  fst (fst (s_on_file_monitor_changed
              (mkWorld (Some 9%N) true true (ReadOk (lit "y")) true
                 (Some 9%N) true)
              G_FILE_MONITOR_EVENT_CHANGED
              (fst (open_file_from_path
                      (mkWorld None true true (ReadOk (lit "x")) true
                         (Some 7%N) true)
                      (lit "/a") initial_editor)))) = Ignore.
Proof.
rewrite (proj1 (@first_event_after_open_dropped
                  (mkWorld None true true (ReadOk (lit "x")) true
                     (Some 7%N) true)
                  (mkWorld (Some 9%N) true true (ReadOk (lit "y")) true
                     (Some 9%N) true)
                  G_FILE_MONITOR_EVENT_CHANGED (lit "/a") (lit "x")
                  initial_editor ltac:(discriminate) eq_refl
                  (or_intror (or_introl eq_refl)))).
reflexivity.
Defined.



(** X15: "Reload" does nothing without a file name and reloads an
    unmodified buffer without a question.  Over unsaved changes it asks,
    and after a "yes" [open_file_from_path] asks the same question once
    more: the file is read again only after two confirmations, and a "no"
    to either leaves the editor alone. *)
Theorem reload_asks_twice (w1 w2 : World) (e : Editor) :
  (current_file_ e = [] -> s_on_reload_activate w1 w2 e = (e, [])) /\
  (current_file_ e <> [] -> modified_ e = false ->
   s_on_reload_activate w1 w2 e
     = (fst (open_file_from_path w2 (current_file_ e) e), [])) /\
  (current_file_ e <> [] -> modified_ e = true ->
   opened_via_cli_ e = false ->
   s_on_reload_activate w1 w2 e =
     if discard_answer w1 then
       if discard_answer w2 then
         (fst (open_file_from_path w2 (current_file_ e) e),
          [DiscardDialog; DiscardDialog])
       else (e, [DiscardDialog; DiscardDialog])
     else (e, [DiscardDialog])).
Proof.
unfold s_on_reload_activate. split; [|split].
- now intros ->.
- intros Hf Hm. destruct (current_file_ e) as [|c p] eqn:Ef; [congruence|].
  rewrite Hm.
  rewrite (@open_file_from_path_goes_on w2 (c :: p) e
             (or_intror (or_introl Hm))).
  rewrite Hm, andb_false_r. reflexivity.
- intros Hf Hm Hc. destruct (current_file_ e) as [|c p] eqn:Ef; [congruence|].
  rewrite Hm. unfold maybe_confirm_discard at 1. rewrite Hm. simpl negb.
  cbv iota. destruct (discard_answer w1); simpl; [|reflexivity].
  destruct (discard_answer w2) eqn:E2.
  + rewrite (@open_file_from_path_goes_on w2 (c :: p) e
               (or_intror (or_intror E2))).
    now rewrite Hc, Hm.
  + now rewrite (@open_file_from_path_declined w2 (c :: p) e Hc Hm E2).
Qed.

Lemma reload_asks_twice_witness :
  s_on_reload_activate
    (mkWorld None true true (ReadOk (lit "x")) true (Some 7%N) true)
    (mkWorld None true false (ReadOk (lit "x")) true (Some 7%N) true)
    (mkEditor (gtk_text_buffer_set_text (lit "ab")) (lit "f") true
              [] (Some (lit "f")) 5 false false)
  = (mkEditor (gtk_text_buffer_set_text (lit "ab")) (lit "f") true
              [] (Some (lit "f")) 5 false false,
     [DiscardDialog; DiscardDialog]).
Proof.
apply (proj2 (proj2 (reload_asks_twice
         (mkWorld None true true (ReadOk (lit "x")) true (Some 7%N) true)
         (mkWorld None true false (ReadOk (lit "x")) true (Some 7%N) true)
         (mkEditor (gtk_text_buffer_set_text (lit "ab")) (lit "f") true
                   [] (Some (lit "f")) 5 false false))));
  [discriminate|reflexivity|reflexivity].
Defined.

(** X16: what "Save As" ends with.  A cancelled dialog changes nothing.  A
    write that fails changes nothing but the suppression, which is then
    set.  A write that succeeds leaves the buffer as it is, unmodified
    under the new name, with the suppression set and the mtime read after
    the write, and watched when a monitor can be had.  "Save" without a
    file name is "Save As". *)
Theorem save_file_as_outcomes (w : World) (fn : std_string) (e : Editor) :
  save_file_as w None e = e /\
  (write_ok w = false ->
   save_file_as w (Some fn) e = set_suppress_monitor_once true e) /\
  (write_ok w = true ->
   buffer_ (save_file_as w (Some fn) e) = buffer_ e /\
   current_file_ (save_file_as w (Some fn) e) = fn /\
   modified_ (save_file_as w (Some fn) e) = false /\
   suppress_monitor_once_ (save_file_as w (Some fn) e) = true /\
   file_mtime_utc_us_ (save_file_as w (Some fn) e)
     = get_file_mtime_us (query_info_after w) /\
   file_monitor_ (save_file_as w (Some fn) e)
     = (if monitor_ok w
        then match fn with [] => None | _ :: _ => Some fn end
        else None)) /\
  (current_file_ e = [] ->
   s_on_save_activate w (Some fn) e = save_file_as w (Some fn) e).
Proof.
split; [reflexivity|]. split; [|split].
- intros Hw. unfold save_file_as. now rewrite Hw.
- intros Hw. unfold save_file_as, install_file_monitor. rewrite Hw.
  destruct fn as [|c fn]; simpl.
  + repeat split. now destruct (monitor_ok w).
  + destruct (monitor_ok w); repeat split.
- intros Hf. unfold s_on_save_activate. now rewrite Hf.
Qed.

Lemma save_file_as_outcomes_witness :
  save_file_as (mkWorld None true true ReadError true None false)
    (Some (lit "/b")) initial_editor
  = set_suppress_monitor_once true initial_editor
  /\ current_file_
       (save_file_as (mkWorld None true true ReadError true (Some 3%N) true)
          (Some (lit "/b")) initial_editor) = lit "/b".
Proof.
split.
- apply (proj1 (proj2 (save_file_as_outcomes
           (mkWorld None true true ReadError true None false) (lit "/b")
           initial_editor))). reflexivity.
- destruct (save_file_as_outcomes
              (mkWorld None true true ReadError true (Some 3%N) true)
              (lit "/b") initial_editor) as (_ & _ & H & _).
  apply (H eq_refl).
Defined.

(** X17: a file that was not there when it was opened is never watched:
    [open_file_from_path] removes the monitor, and a later [save_file],
    which creates the file, installs none. *)
Theorem missing_file_never_watched
    (w w' : World) (path : std_string) (e : Editor) :
  file_contents w = ReadNoEnt ->
  opened_via_cli_ e = true \/ modified_ e = false
  \/ discard_answer w = true ->
  reconciler (fst (open_file_from_path w path e)) = Unwatched /\
  reconciler (save_file w' (fst (open_file_from_path w path e))) = Unwatched /\
  current_file_ (save_file w' (fst (open_file_from_path w path e))) = path /\
  (path <> [] ->
   forall chosen,
     reconciler (s_on_save_activate w' chosen
                   (fst (open_file_from_path w path e))) = Unwatched).
Proof.
intros Hr Hgo. rewrite (@open_file_from_path_goes_on w path e Hgo), Hr.
cbn [fst]. unfold save_file, s_on_save_activate.
split; [reflexivity|]. split; [|split].
- now destruct (write_ok w').
- now destruct (write_ok w').
- intros Hp chosen. simpl. destruct path; [congruence|].
  unfold save_file. now destruct (write_ok w').
Qed.

Lemma missing_file_never_watched_witness :
  reconciler
    (save_file (mkWorld None true true ReadError true (Some 3%N) true)
       (fst (open_file_from_path
               (mkWorld None true true ReadNoEnt true None true)
               (lit "/new") initial_editor))) = Unwatched.
Proof.
apply (@missing_file_never_watched
         (mkWorld None true true ReadNoEnt true None true)
         (mkWorld None true true ReadError true (Some 3%N) true)
         (lit "/new") initial_editor eq_refl
         (or_intror (or_introl eq_refl))).
Defined.

(** ** More on searching and replacing *)

Section SearchMore.

Lemma forward_at_occurrence (pat : utf8_text) (b : TextBuffer) (s : nat) :
  occurs_at pat (text b) s = true ->
  gtk_source_search_context_forward pat b s = Some (s, s + length pat).
Proof.
intros Hs.
destruct (gtk_source_search_context_forward pat b s) as [[s' e']|] eqn:E.
- pose proof (@forward_some pat b s s' e' E) as (Hle & -> & _).
  destruct (Nat.eq_dec s s') as [<-|Hne]; [reflexivity|].
  rewrite (@forward_first pat b s s' _ E s) in Hs by lia. discriminate.
- rewrite forward_none in E. rewrite E in Hs by lia. discriminate.
Qed.

Lemma forward_text_only (pat : utf8_text) (b b' : TextBuffer) (iter : nat) :
  text b = text b' ->
  gtk_source_search_context_forward pat b iter
  = gtk_source_search_context_forward pat b' iter.
Proof.
unfold gtk_source_search_context_forward. now intros ->.
Qed.

Lemma find_next_match_some (pat : utf8_text) (b : TextBuffer)
    (backwards : bool) (s t : nat) :
  find_next_match pat b backwards = Some (s, t) ->
  t = s + length pat /\ occurs_at pat (text b) s = true.
Proof.
unfold find_next_match. intros H.
destruct backwards.
- destruct (gtk_source_search_context_backward pat b (insert b))
    as [m|] eqn:E.
  + injection H as ->. now apply backward_some in E.
  + now apply backward_some in H.
- destruct (gtk_source_search_context_forward pat b (insert b))
    as [m|] eqn:E.
  + injection H as ->. now apply forward_some in E.
  + now apply forward_some in H.
Qed.

Lemma starts_with_fold (pat t : utf8_text) :
  starts_with pat t = true ->
  map fold_case (firstn (length pat) t) = map fold_case pat.
Proof.
revert t. induction pat as [|p pat IH]; intros t H; [reflexivity|].
destruct t as [|c t]; [discriminate|]. simpl in *.
apply andb_true_iff in H. destruct H as [Hc H].
apply N.eqb_eq in Hc. now rewrite Hc, IH.
Qed.

Lemma firstn_firstn_app (A : Type) (n : nat) (l r : list A) :
  n <= length l ->
  firstn n (firstn n l ++ r) = firstn n l /\
  skipn n (firstn n l ++ r) = r.
Proof.
intros H.
assert (Hl : length (firstn n l) = n) by (rewrite length_firstn; lia).
split.
- rewrite firstn_app, Hl, Nat.sub_diag. simpl. rewrite app_nil_r.
  rewrite <- Hl at 1. apply firstn_all.
- rewrite skipn_app, Hl, Nat.sub_diag. simpl.
  rewrite <- Hl at 1. now rewrite skipn_all.
Qed.

(** Replacing the range from [a] to [b] by [repl]. *)
Lemma replace_range_text (buf : TextBuffer) (a b : nat) (repl : std_string) :
  a <= b -> a <= length (text buf) ->
  text (fst (gtk_text_buffer_insert
               (fst (gtk_text_buffer_delete buf a b))
               (snd (gtk_text_buffer_delete buf a b)) repl))
  = firstn a (text buf) ++ utf8_decode repl ++ skipn b (text buf).
Proof.
intros Hab Ha. simpl. rewrite Nat.min_l, Nat.max_r by lia.
destruct (@firstn_firstn_app _ a (text buf) (skipn b (text buf)) Ha)
  as [-> ->].
reflexivity.
Qed.

Lemma search_replace_one_on_selection (repl : std_string) (e : Editor)
    (a b : nat) :
  gtk_text_buffer_get_selection_bounds (buffer_ e) = Some (a, b) ->
  search_replace_one repl e =
  buffer_changed
    (fst (gtk_text_buffer_insert
            (fst (gtk_text_buffer_delete (buffer_ e) a b))
            (snd (gtk_text_buffer_delete (buffer_ e) a b)) repl)) e.
Proof.
intros H. unfold search_replace_one. rewrite H. cbv zeta. rewrite H.
reflexivity.
Qed.

Lemma selection_bounds_ordered (b : TextBuffer) (x y : nat) :
  gtk_text_buffer_get_selection_bounds b = Some (x, y) ->
  x < y /\ y = Nat.max (insert b) (selection_bound b).
Proof.
unfold gtk_text_buffer_get_selection_bounds.
destruct (insert b =? selection_bound b) eqn:E; [discriminate|].
apply Nat.eqb_neq in E. intros [= <- <-]. lia.
Qed.

Lemma search_find_next_selection (backwards : bool) (e : Editor)
    (s t : nat) :
  find_next_match (search_text_ e) (buffer_ e) backwards = Some (s, t) ->
  gtk_text_buffer_get_selection_bounds
    (buffer_ (search_find_next backwards e)) = Some (s, t) /\
  t = s + length (search_text_ e) /\
  t <= length (text (buffer_ e)).
Proof.
intros H. pose proof (@find_next_match_some _ _ _ _ _ H) as [-> Hocc].
pose proof (@occurs_at_inside _ _ _ Hocc) as (Hne & Hpos & Hin).
unfold search_find_next. rewrite H.
cbn [buffer_ set_buffer gtk_text_buffer_select_range].
split; [|split; [reflexivity|exact Hin]].
unfold gtk_text_buffer_get_selection_bounds. simpl.
replace (s =? s + length (search_text_ e)) with false
  by (symmetry; apply Nat.eqb_neq; lia).
now rewrite Nat.min_l, Nat.max_r by lia.
Qed.

Lemma find_next_match_at_selection (pat : utf8_text) (b : TextBuffer)
    (s t : nat) :
  occurs_at pat (text b) s = true ->
  find_next_match pat (gtk_text_buffer_select_range b s t) false
  = Some (s, s + length pat).
Proof.
intros Hocc. unfold find_next_match.
change (insert (gtk_text_buffer_select_range b s t)) with s.
rewrite (@forward_text_only pat (gtk_text_buffer_select_range b s t) b s
           eq_refl).
now rewrite (@forward_at_occurrence _ _ _ Hocc).
Qed.

End SearchMore.

(** X18: "Find Next" forward does not move on: the match it selects has
    the cursor at its start, and the next forward search starts there and
    finds the same match again, so a second [search_find_next(false)]
    changes nothing. *)
Theorem find_next_forward_stays (e : Editor) :
  search_find_next false (search_find_next false e)
  = search_find_next false e.
Proof.
destruct (find_next_match (search_text_ e) (buffer_ e) false)
  as [[s t]|] eqn:E.
- pose proof (@find_next_match_some _ _ _ _ _ E) as [Ht Hocc].
  assert (E1 : search_find_next false e
               = set_buffer (gtk_text_buffer_select_range (buffer_ e) s t) e)
    by (unfold search_find_next; now rewrite E).
  rewrite E1. unfold search_find_next.
  cbn [search_text_ buffer_ set_buffer].
  rewrite (@find_next_match_at_selection _ _ s t Hocc), <- Ht. reflexivity.
- assert (E1 : search_find_next false e = e)
    by (unfold search_find_next; now rewrite E).
  now rewrite !E1.
Qed.

(** X19: when [search_find_next] finds something, the selection is that
    match: it runs from the start to the end of a place inside the text
    where the text reads like the search text up to the case of ASCII
    letters, the cursor being at its start; the text itself is not
    changed.  When nothing is found the editor stays as it is. *)
Theorem find_next_selects_match (backwards : bool) (e : Editor) :
  text (buffer_ (search_find_next backwards e)) = text (buffer_ e) /\
  (find_next_match (search_text_ e) (buffer_ e) backwards = None ->
   search_find_next backwards e = e) /\
  forall s t,
    find_next_match (search_text_ e) (buffer_ e) backwards = Some (s, t) ->
    gtk_text_buffer_get_selection_bounds
      (buffer_ (search_find_next backwards e)) = Some (s, t) /\
    insert (buffer_ (search_find_next backwards e)) = s /\
    t = s + length (search_text_ e) /\
    t <= length (text (buffer_ e)) /\
    map fold_case
        (firstn (length (search_text_ e)) (skipn s (text (buffer_ e))))
      = map fold_case (search_text_ e).
Proof.
split; [apply search_find_next_keeps|]. split.
- intros H. unfold search_find_next. now rewrite H.
- intros s t H. pose proof (@find_next_match_some _ _ _ _ _ H) as [-> Hocc].
  pose proof (@occurs_at_inside _ _ _ Hocc) as (Hne & Hpos & Hin).
  unfold search_find_next. rewrite H.
  cbn [buffer_ set_buffer gtk_text_buffer_select_range insert].
  split; [|split; [reflexivity|split; [reflexivity|split; [exact Hin|]]]].
  + unfold gtk_text_buffer_get_selection_bounds. simpl.
    replace (s =? s + length (search_text_ e)) with false
      by (symmetry; apply Nat.eqb_neq; lia).
    now rewrite Nat.min_l, Nat.max_r by lia.
  + apply starts_with_fold. unfold occurs_at in Hocc.
    now destruct (search_text_ e).
Qed.

Lemma find_next_selects_match_witness :
  gtk_text_buffer_get_selection_bounds
    (buffer_ (search_find_next false
                (mkEditor (mkBuffer (utf8_decode (lit "Hello World")) 3 3)
                   [] false (utf8_decode (lit "WORLD")) None 0 false false)))
  = Some (6, 11).
Proof.
destruct (find_next_selects_match false
            (mkEditor (mkBuffer (utf8_decode (lit "Hello World")) 3 3)
               [] false (utf8_decode (lit "WORLD")) None 0 false false))
  as (_ & _ & H).
apply (H 6 11 eq_refl).
Defined.

(** X20: "Replace" in the replace dialog.  When the search text is found
    (from the cursor, or after wrapping), that match is replaced and the
    buffer is modified.  When it is not found and nothing is selected,
    nothing is replaced.  When it is not found but some text is selected,
    that selection is replaced all the same, although it is no match. *)
Theorem replace_dialog_replace (f r : std_string) (e : Editor) :
  (forall s t,
     find_next_match (utf8_decode f) (buffer_ e) false = Some (s, t) ->
     text (buffer_ (s_on_replace_dialog_response GTK_RESPONSE_ACCEPT f r e))
       = firstn s (text (buffer_ e)) ++ utf8_decode r
           ++ skipn t (text (buffer_ e)) /\
     modified_ (s_on_replace_dialog_response GTK_RESPONSE_ACCEPT f r e)
       = true) /\
  (find_next_match (utf8_decode f) (buffer_ e) false = None ->
   gtk_text_buffer_get_selection_bounds (buffer_ e) = None ->
   s_on_replace_dialog_response GTK_RESPONSE_ACCEPT f r e
     = update_search_from_dialog f e) /\
  (forall a b,
     find_next_match (utf8_decode f) (buffer_ e) false = None ->
     gtk_text_buffer_get_selection_bounds (buffer_ e) = Some (a, b) ->
     b <= length (text (buffer_ e)) ->
     text (buffer_ (s_on_replace_dialog_response GTK_RESPONSE_ACCEPT f r e))
       = firstn a (text (buffer_ e)) ++ utf8_decode r
           ++ skipn b (text (buffer_ e)) /\
     modified_ (s_on_replace_dialog_response GTK_RESPONSE_ACCEPT f r e)
       = true).
Proof.
unfold s_on_replace_dialog_response.
set (self1 := update_search_from_dialog f e).
assert (Hb : buffer_ self1 = buffer_ e) by reflexivity.
assert (Hp : search_text_ self1 = utf8_decode f) by reflexivity.
split; [|split].
- intros s t H.
  assert (H' : find_next_match (search_text_ self1) (buffer_ self1) false
               = Some (s, t)) by (now rewrite Hp, Hb).
  destruct (@search_find_next_selection false self1 s t H')
    as (Hs & Ht' & Hin).
  rewrite Hb in Hin. rewrite Hp in Ht'. subst t.
  rewrite (@search_replace_one_on_selection r _ _ _ Hs). cbn [buffer_ modified_
    buffer_changed mark_modified set_buffer].
  split; [|reflexivity].
  rewrite replace_range_text.
  + destruct (search_find_next_keeps false self1) as (Ht & _).
    now rewrite Ht, Hb.
  + lia.
  + destruct (search_find_next_keeps false self1) as (Ht & _).
    rewrite Ht, Hb. lia.
- intros H Hsel.
  assert (E : search_find_next false self1 = self1).
  { unfold search_find_next. now rewrite Hp, Hb, H. }
  rewrite E. unfold search_replace_one. rewrite Hb, Hsel, E, Hb, Hsel.
  reflexivity.
- intros a b H Hsel Hin.
  assert (E : search_find_next false self1 = self1).
  { unfold search_find_next. now rewrite Hp, Hb, H. }
  rewrite E. rewrite <- Hb in Hsel.
  rewrite (@search_replace_one_on_selection r _ _ _ Hsel).
  cbn [buffer_ modified_ buffer_changed mark_modified set_buffer].
  split; [|reflexivity].
  apply selection_bounds_ordered in Hsel. destruct Hsel as [Hab _].
  rewrite replace_range_text; [now rewrite Hb|lia|rewrite Hb; lia].
Qed.

Lemma replace_dialog_replace_witness :
  text (buffer_ (s_on_replace_dialog_response GTK_RESPONSE_ACCEPT
                   (lit "zz") (lit "X")
                   (mkEditor (mkBuffer (utf8_decode (lit "Hello")) 1 3)
                      [] false [] None 0 false false)))
  = utf8_decode (lit "HXlo")
  /\ text (buffer_ (s_on_replace_dialog_response GTK_RESPONSE_ACCEPT
                      (lit "l") (lit "X")
                      (mkEditor (mkBuffer (utf8_decode (lit "Hello")) 0 0)
                         [] false [] None 0 false false)))
     = utf8_decode (lit "HeXlo").
Proof.
split.
- destruct (replace_dialog_replace (lit "zz") (lit "X")
              (mkEditor (mkBuffer (utf8_decode (lit "Hello")) 1 3)
                 [] false [] None 0 false false)) as (_ & _ & H).
  destruct (H 1 3 eq_refl eq_refl) as [H1 _]; [simpl; lia|].
  rewrite H1. reflexivity.
- destruct (replace_dialog_replace (lit "l") (lit "X")
              (mkEditor (mkBuffer (utf8_decode (lit "Hello")) 0 0)
                 [] false [] None 0 false false)) as (H & _).
  destruct (H 2 3 eq_refl) as [H1 _]. rewrite H1. reflexivity.
Defined.

Section ReplaceAllBound.

Variable pat : utf8_text.
Variable repl : std_string.

(** One turn of the loop uses up at least the length of the search text
    of what is left to search. *)
Lemma replace_step_uses (b : TextBuffer) (iter mstart mend : nat) :
  gtk_source_search_context_forward pat b iter = Some (mstart, mend) ->
  let b1 := fst (gtk_text_buffer_delete b mstart mend) in
  let mstart1 := snd (gtk_text_buffer_delete b mstart mend) in
  let b2 := fst (gtk_text_buffer_insert b1 mstart1 repl) in
  let mstart2 := snd (gtk_text_buffer_insert b1 mstart1 repl) in
  let iter' := gtk_text_iter_forward_chars b2 mstart2 (length repl) in
  iter <= length (text b) /\
  length (text b2) - iter' + length pat <= length (text b) - iter.
Proof.
intros Hf. apply forward_some in Hf. destruct Hf as (Hle & -> & Hocc).
apply occurs_at_inside in Hocc. destruct Hocc as (_ & Hpos & Hin).
intros b1 mstart1 b2 mstart2 iter'.
destruct (@length_delete_text b mstart (mstart + length pat))
  as [Hd1 Hd2]; [lia|lia|].
fold b1 in Hd1. fold mstart1 in Hd2.
pose proof (length_insert_text repl b1 mstart1) as Hi. fold b2 in Hi.
assert (Hm2 : mstart2 = mstart1 + length (utf8_decode repl))
  by reflexivity.
unfold iter', gtk_text_iter_forward_chars. lia.
Qed.

Lemma replace_all_loop_bound (fuel : nat) :
  forall (b : TextBuffer) (iter : nat) (count : Z) (b' : TextBuffer)
         (count' : Z),
    replace_all_loop fuel pat repl b iter count = Some (b', count') ->
    ((count' - count) * Z.of_nat (length pat)
       <= Z.of_nat (length (text b) - iter))%Z.
Proof.
induction fuel as [|fuel IH]; intros b iter count b' count' H;
  [discriminate|].
rewrite replace_all_loop_unfold in H.
destruct (gtk_source_search_context_forward pat b iter)
  as [[mstart mend]|] eqn:Ef.
- pose proof (@replace_step_uses b iter mstart mend Ef) as [Hi Hlen].
  cbv zeta in *. apply IH in H. nia.
- injection H as <- <-. rewrite Z.sub_diag. simpl. lia.
Qed.

End ReplaceAllBound.

Lemma search_replace_all_bound_nil (repl : std_string) (b : TextBuffer) :
  fst (replace_all [] repl b) = b /\ snd (replace_all [] repl b) = 0%Z.
Proof.
unfold replace_all. simpl. split; reflexivity.
Qed.

(** X21: "Replace All" replaces at most as many matches as fit into the
    text one after the other: [count] times the length of the search text
    is at most the length of the text.  So [count] is at most the number
    of characters, and stays an [int] when that number does. *)
Theorem replace_all_count_bound
    (pat : utf8_text) (repl : std_string) (b : TextBuffer) :
  (snd (replace_all pat repl b) * Z.of_nat (length pat)
     <= Z.of_nat (length (text b)))%Z /\
  (0 <= snd (replace_all pat repl b) <= Z.of_nat (length (text b)))%Z /\
  (is_int (Z.of_nat (length (text b))) ->
   is_int (snd (replace_all pat repl b))).
Proof.
pose proof (replace_all_eq pat repl b) as Heq.
destruct (replace_all pat repl b) as [b' c'] eqn:Er. cbn [snd].
pose proof (@replace_all_loop_bound pat repl _ _ _ _ _ _ Heq) as Hb.
pose proof (@replace_all_loop_count pat repl _ _ _ _ _ _ Heq)
  as (Hle & _ & _).
rewrite Z.sub_0_r, Nat.sub_0_r in Hb.
assert (Hc : (0 <= c' <= Z.of_nat (length (text b)))%Z).
{ split; [lia|]. destruct pat as [|p pat'].
  - destruct (search_replace_all_bound_nil repl b) as [_ H].
    rewrite Er in H. simpl in H. lia.
  - simpl length in Hb. nia. }
split; [exact Hb|]. split; [exact Hc|]. unfold is_int. lia.
Qed.

Lemma replace_all_count_bound_witness :
  is_int (snd (replace_all (utf8_decode (lit "a")) (lit "b")
                 (gtk_text_buffer_set_text (lit "banana")))).
Proof.
apply (replace_all_count_bound (utf8_decode (lit "a")) (lit "b")
         (gtk_text_buffer_set_text (lit "banana"))).
unfold is_int. simpl. lia.
Defined.

(** X22: [file_mtime_us_gio] gives [0] for a file that cannot be queried.
    For a time stamp whose microseconds fit into 64 bits it gives a whole
    number of seconds, [0] only for the time stamp [0] itself, and
    different values for different seconds: within that range a changed
    second is always seen as a changed mtime, and changes within one
    second never are. *)
Theorem file_mtime_us_gio_seconds (sec sec' : N) :
  file_mtime_us_gio None = 0%N /\
  ((sec * 1000000 < 2 ^ 64)%N ->
   (file_mtime_us_gio (Some sec) mod 1000000 = 0)%N /\
   (file_mtime_us_gio (Some sec) = 0%N <-> sec = 0%N) /\
   ((sec' * 1000000 < 2 ^ 64)%N ->
    file_mtime_us_gio (Some sec) = file_mtime_us_gio (Some sec') ->
    sec = sec')).
Proof.
split; [reflexivity|]. intros H. unfold file_mtime_us_gio.
rewrite (N.mod_small _ _ H). split; [|split].
- apply N.Div0.mod_mul.
- lia.
- intros H'. rewrite (N.mod_small _ _ H'). lia.
Qed.

Lemma file_mtime_us_gio_seconds_witness :
  (file_mtime_us_gio (Some 1700000000%N) mod 1000000 = 0)%N.
Proof.
destruct (file_mtime_us_gio_seconds 1700000000 1700000001) as [_ H].
apply H. reflexivity.
Defined.

(** ** Configuration and session *)

Section KeyFiles.

Lemma str_eqb_eq (a b : std_string) : str_eqb a b = true <-> a = b.
Proof.
unfold str_eqb. destruct (list_eq_dec ascii_dec a b); split;
  congruence.
Qed.

Lemma key_file_set_same (kf : GKeyFile) (g k v : std_string) :
  key_file_set kf g k v g k = Some v.
Proof.
unfold key_file_set.
now rewrite (proj2 (str_eqb_eq g g) eq_refl), (proj2 (str_eqb_eq k k) eq_refl).
Qed.

Lemma key_file_set_other (kf : GKeyFile) (g k v g' k' : std_string) :
  g <> g' \/ k <> k' -> key_file_set kf g k v g' k' = kf g' k'.
Proof.
intros H. unfold key_file_set.
destruct (str_eqb g g') eqn:Eg; [|reflexivity].
destruct (str_eqb k k') eqn:Ek; [|reflexivity].
apply str_eqb_eq in Eg, Ek. destruct H; congruence.
Qed.

Variable V : KeyFileValues.

(** The key file of [save_config] holds the four preferences and nothing
    else. *)
Lemma config_key_file_lookup (p : Prefs) :
  config_key_file V p (lit "prefs") (lit "trim_ws_on_save")
    = Some (boolean_text V (trim_ws_on_save_ p)) /\
  config_key_file V p (lit "prefs") (lit "ensure_newline_eof")
    = Some (boolean_text V (ensure_newline_eof_ p)) /\
  config_key_file V p (lit "prefs") (lit "tab_width")
    = Some (integer_text V (tab_width_ p)) /\
  config_key_file V p (lit "prefs") (lit "font_pt")
    = Some (integer_text V (font_pt_ p)) /\
  forall g k, g <> lit "prefs" -> config_key_file V p g k = None.
Proof.
repeat split.
intros g k Hg. unfold config_key_file, g_key_file_set_integer,
  g_key_file_set_boolean.
rewrite !key_file_set_other by (left; congruence). reflexivity.
Qed.

Lemma load_config_of_key_file (p p0 : Prefs) :
  (forall b, text_boolean V (boolean_text V b) = Some b) ->
  text_integer V (integer_text V (tab_width_ p)) = Some (tab_width_ p) ->
  text_integer V (integer_text V (font_pt_ p)) = Some (font_pt_ p) ->
  load_config V (Some (config_key_file V p)) p0 = p.
Proof.
intros Hb Ht Hf. destruct (config_key_file_lookup p) as (K1 & K2 & K3 & K4 & _).
unfold load_config, g_key_file_has_key, g_key_file_get_boolean,
  g_key_file_get_integer.
rewrite K1, K2, K3, K4, !Hb, Ht, Hf. now destruct p.
Qed.

End KeyFiles.

(** X23: a key that is missing keeps the value the preference has:
    [load_config] changes nothing when [config.ini] cannot be loaded or is
    empty, and with a key file it changes exactly the preferences whose
    keys are there, to what the key file's getters give. *)
Theorem load_config_missing_keys (V : KeyFileValues) (kf : GKeyFile)
    (p : Prefs) :
  load_config V None p = p /\
  load_config V (Some g_key_file_new) p = p /\
  trim_ws_on_save_ (load_config V (Some kf) p)
    = (if g_key_file_has_key kf (lit "prefs") (lit "trim_ws_on_save")
       then g_key_file_get_boolean V kf (lit "prefs") (lit "trim_ws_on_save")
       else trim_ws_on_save_ p) /\
  ensure_newline_eof_ (load_config V (Some kf) p)
    = (if g_key_file_has_key kf (lit "prefs") (lit "ensure_newline_eof")
       then g_key_file_get_boolean V kf (lit "prefs")
              (lit "ensure_newline_eof")
       else ensure_newline_eof_ p) /\
  tab_width_ (load_config V (Some kf) p)
    = (if g_key_file_has_key kf (lit "prefs") (lit "tab_width")
       then g_key_file_get_integer V kf (lit "prefs") (lit "tab_width")
       else tab_width_ p) /\
  font_pt_ (load_config V (Some kf) p)
    = (if g_key_file_has_key kf (lit "prefs") (lit "font_pt")
       then g_key_file_get_integer V kf (lit "prefs") (lit "font_pt")
       else font_pt_ p).
Proof.
split; [reflexivity|]. split; [reflexivity|].
unfold load_config.
destruct (g_key_file_has_key kf (lit "prefs") (lit "trim_ws_on_save")),
  (g_key_file_has_key kf (lit "prefs") (lit "ensure_newline_eof")),
  (g_key_file_has_key kf (lit "prefs") (lit "tab_width")),
  (g_key_file_has_key kf (lit "prefs") (lit "font_pt"));
  repeat split.
Qed.

(** X24: what [save_config] writes, [load_config] reads back: provided the
    key file reads a boolean and an [int] back as it wrote them, loading
    the file that a successful [save_config] left gives exactly the saved
    preferences, whatever the preferences were before. *)
Theorem config_round_trip (V : KeyFileValues) (disk : ConfigFile)
    (p p0 : Prefs) :
  (forall b, text_boolean V (boolean_text V b) = Some b) ->
  (forall z, is_int z -> text_integer V (integer_text V z) = Some z) ->
  is_int (tab_width_ p) -> is_int (font_pt_ p) ->
  load_config V (save_config V true disk p) p0 = p.
Proof.
intros Hb Hz Ht Hf. unfold save_config.
apply load_config_of_key_file; auto.
Qed.

Lemma plain_values_boolean (b : bool) :
  text_boolean plain_values (boolean_text plain_values b) = Some b.
Proof. now destruct b. Qed.

Lemma plain_values_integer (z : Z) :
  text_integer plain_values (integer_text plain_values z) = Some z.
Proof.
unfold plain_values, lit. cbn [text_integer integer_text].
rewrite string_of_list_ascii_of_string, NilEmpty.isi. simpl.
now rewrite DecimalZ.of_to.
Qed.

Lemma config_round_trip_witness :
  load_config plain_values
    (save_config plain_values true None (mkPrefs false true 8 14))
    default_prefs
  = mkPrefs false true 8 14.
Proof.
apply (@config_round_trip plain_values None (mkPrefs false true 8 14)
         default_prefs plain_values_boolean
         (fun z _ => plain_values_integer z)).
- unfold is_int. simpl. lia.
- unfold is_int. simpl. lia.
Defined.

(** X25: [save_session] writes the file name next to whatever the file
    holds: every other key keeps its value, so the preferences load as
    before, and, provided the key file reads a string back as it wrote it,
    [load_session] afterwards gives the file name back when it is not
    empty (an empty one is not taken). *)
Theorem save_session_keeps_other_keys (V : KeyFileValues)
    (disk : ConfigFile) (e e0 : Editor) (p : Prefs) :
  load_config V (save_session V true disk e) p
    = load_config V (match disk with
                     | Some kf => Some kf
                     | None => Some g_key_file_new
                     end) p /\
  save_session V false disk e = disk /\
  ((forall s, text_string V (string_text V s) = Some s) ->
   load_session V (save_session V true disk e) e0
     = match current_file_ e with
       | [] => e0
       | _ :: _ => set_current_file (current_file_ e) e0
       end).
Proof.
split; [|split; [reflexivity|]].
- unfold save_session, load_config, g_key_file_set_string,
    g_key_file_has_key, g_key_file_get_boolean, g_key_file_get_integer.
  rewrite !key_file_set_other by (left; discriminate).
  destruct disk; reflexivity.
- intros Hs. unfold save_session, load_session, g_key_file_set_string,
    g_key_file_has_key, g_key_file_get_string.
  rewrite key_file_set_same, Hs. now destruct (current_file_ e).
Qed.

Lemma save_session_keeps_other_keys_witness :
  load_session plain_values
    (save_session plain_values true None
       (set_current_file (lit "/a") initial_editor)) initial_editor
  = set_current_file (lit "/a") initial_editor.
Proof.
destruct (save_session_keeps_other_keys plain_values None
            (set_current_file (lit "/a") initial_editor) initial_editor
            default_prefs) as (_ & _ & H).
apply H. reflexivity.
Defined.

(** X26: the destructor saves the session and then the configuration, and
    [save_config] writes a key file of its own that holds the four
    preferences only.  When both writes succeed, the file name that
    [save_session] has just stored is gone again: the next [load_session]
    finds nothing and changes nothing, and the next editor starts without
    a file, while the preferences are there.  Only when the second write
    fails does the stored file name survive. *)
Theorem session_lost_on_exit (V : KeyFileValues) (disk : ConfigFile)
    (e e0 : Editor) (p p0 : Prefs) :
  load_session V (Editor_delete V true true disk (e, p)) e0 = e0 /\
  fst (Editor_new V (Editor_delete V true true disk (e, p)))
    = initial_editor /\
  Editor_delete V true true disk (e, p) = Some (config_key_file V p) /\
  Editor_delete V true false disk (e, p)
    = save_session V true disk (remove_file_monitor e) /\
  ((forall b, text_boolean V (boolean_text V b) = Some b) ->
   (forall z, is_int z -> text_integer V (integer_text V z) = Some z) ->
   is_int (tab_width_ p) -> is_int (font_pt_ p) ->
   load_config V (Editor_delete V true true disk (e, p)) p0 = p).
Proof.
assert (Hd : Editor_delete V true true disk (e, p)
             = Some (config_key_file V p)) by reflexivity.
assert (Hl : forall e1, load_session V (Some (config_key_file V p)) e1 = e1).
{ intros e1. unfold load_session, g_key_file_has_key.
  destruct (config_key_file_lookup V p) as (_ & _ & _ & _ & Hn).
  rewrite Hn by discriminate. reflexivity. }
split; [|split; [|split; [|split]]].
- rewrite Hd. apply Hl.
- unfold Editor_new. rewrite Hd. cbn [fst]. apply Hl.
- exact Hd.
- reflexivity.
- intros Hb Hz Ht Hf. rewrite Hd. apply load_config_of_key_file; auto.
Qed.

Lemma session_lost_on_exit_witness :
  load_config plain_values
    (Editor_delete plain_values true true None
       (set_current_file (lit "/a") initial_editor, mkPrefs false true 8 14))
    default_prefs
  = mkPrefs false true 8 14.
Proof.
destruct (session_lost_on_exit plain_values None
            (set_current_file (lit "/a") initial_editor) initial_editor
            (mkPrefs false true 8 14) default_prefs) as (_ & _ & _ & _ & H).
apply (H plain_values_boolean (fun z _ => plain_values_integer z)).
- unfold is_int. simpl. lia.
- unfold is_int. simpl. lia.
Defined.

(** X27: a new editor has a font size between 7 and 32 points whatever
    [config.ini] says, while the tab width is taken from the file as it
    is.  The file name of the session is only taken as the editor's file
    name: the buffer is empty and unmodified, and there is no monitor. *)
Theorem Editor_new_state (V : KeyFileValues) (disk : ConfigFile) :
  (7 <= font_pt_ (snd (Editor_new V disk)) <= 32)%Z /\
  tab_width_ (snd (Editor_new V disk))
    = tab_width_ (load_config V disk default_prefs) /\
  text (buffer_ (fst (Editor_new V disk))) = [] /\
  modified_ (fst (Editor_new V disk)) = false /\
  reconciler (fst (Editor_new V disk)) = Unwatched /\
  current_file_ (fst (Editor_new V disk))
    = current_file_ (load_session V disk initial_editor).
Proof.
unfold Editor_new. cbn [fst snd].
split; [apply zoom_set_range|]. split; [reflexivity|].
assert (H : forall e,
          text (buffer_ (load_session V disk e)) = text (buffer_ e) /\
          modified_ (load_session V disk e) = modified_ e /\
          reconciler (load_session V disk e) = reconciler e).
{ intros e. unfold load_session. destruct disk as [kf|]; [|now repeat split].
  destruct (g_key_file_has_key kf _ _); [|now repeat split].
  destruct (g_key_file_get_string V kf _ _) as [[|c lf]|]; now repeat split. }
destruct (H initial_editor) as (H1 & H2 & H3).
repeat split; assumption.
Qed.

(** The handler on an editor that is not suppressed, when the mtime it
    reads is the last known one. *)
Lemma handler_same_mtime (w : World) (ev : GFileMonitorEvent)
    (e : Editor) :
  suppress_monitor_once_ e = false ->
  get_file_mtime_us (query_info w) = 0%N
  \/ get_file_mtime_us (query_info w) = file_mtime_utc_us_ e ->
  s_on_file_monitor_changed w ev e = (Ignore, e, []).
Proof.
intros Hs Hq. unfold s_on_file_monitor_changed.
destruct (current_file_ e); [reflexivity|]. rewrite Hs.
destruct (passes_event_filter ev); [|reflexivity]. simpl negb. cbv iota.
destruct Hq as [->| ->]; [reflexivity|].
rewrite N.eqb_refl. now destruct (_ =? 0)%N.
Qed.

(** X28: an external change over unsaved changes takes two confirmations:
    after "_Reload" in the reload dialog, [open_file_from_path] asks
    whether to discard the changes.  A "no" to either question leaves the
    buffer alone and only moves the last known mtime on, so that a later
    event which finds the same mtime is ignored: the same change is not
    asked about twice. *)
Theorem external_change_declined_once
    (w w2 : World) (ev ev2 : GFileMonitorEvent) (e : Editor) :
  current_file_ e <> [] -> suppress_monitor_once_ e = false ->
  passes_event_filter ev = true ->
  get_file_mtime_us (query_info w) <> 0%N ->
  get_file_mtime_us (query_info w) <> file_mtime_utc_us_ e ->
  modified_ e = true -> opened_via_cli_ e = false ->
  snd (s_on_file_monitor_changed w ev e)
    = (if reload_answer w then [ReloadDialog; DiscardDialog]
       else [ReloadDialog]) /\
  (reload_answer w = false \/ discard_answer w = false ->
   snd (fst (s_on_file_monitor_changed w ev e))
     = set_file_mtime (get_file_mtime_us (query_info w)) e /\
   (query_info w2 = query_info w ->
    s_on_file_monitor_changed w2 ev2
      (snd (fst (s_on_file_monitor_changed w ev e)))
    = (Ignore, snd (fst (s_on_file_monitor_changed w ev e)), []))).
Proof.
intros Hf Hs Hev H0 Hm Hmod Hcli.
rewrite (@handler_detects w ev e Hf Hs Hev H0 Hm). cbv zeta. rewrite Hmod.
set (self1 := set_file_mtime (get_file_mtime_us (query_info w)) e).
assert (Hc1 : opened_via_cli_ self1 = false) by exact Hcli.
assert (Hm1 : modified_ self1 = true) by exact Hmod.
assert (Hign : query_info w2 = query_info w ->
               s_on_file_monitor_changed w2 ev2 self1 = (Ignore, self1, [])).
{ intros Hq.
  apply handler_same_mtime; [exact Hs|].
  right. now rewrite Hq. }
destruct (reload_answer w) eqn:Er.
- destruct (discard_answer w) eqn:Ed.
  + rewrite (@open_file_from_path_goes_on w (current_file_ e) self1
               (or_intror (or_intror Ed))).
    rewrite Hc1, Hm1. cbn [fst snd negb andb]. split; [reflexivity|].
    intros [H|H]; discriminate.
  + rewrite (@open_file_from_path_declined w (current_file_ e) self1
               Hc1 Hm1 Ed).
    cbn [fst snd]. split; [reflexivity|]. intros _.
    split; [reflexivity|exact Hign].
- cbn [fst snd]. split; [reflexivity|]. intros _.
  split; [reflexivity|exact Hign].
Qed.

Lemma external_change_declined_once_witness :
  snd (s_on_file_monitor_changed
         (mkWorld (Some 7%N) true false (ReadOk (lit "x")) true (Some 7%N)
            true)
         G_FILE_MONITOR_EVENT_CHANGED
         (mkEditor (gtk_text_buffer_set_text (lit "ab")) (lit "f") true
                   [] (Some (lit "f")) 5000000 false false))
  = [ReloadDialog; DiscardDialog].
Proof.
apply (@external_change_declined_once
         (mkWorld (Some 7%N) true false (ReadOk (lit "x")) true (Some 7%N)
            true)
         (mkWorld (Some 7%N) true false (ReadOk (lit "x")) true (Some 7%N)
            true)
         G_FILE_MONITOR_EVENT_CHANGED G_FILE_MONITOR_EVENT_CHANGED
         (mkEditor (gtk_text_buffer_set_text (lit "ab")) (lit "f") true
                   [] (Some (lit "f")) 5000000 false false)
         ltac:(discriminate) eq_refl eq_refl ltac:(discriminate)
         ltac:(discriminate) eq_refl eq_refl).
Defined.

(** ** Replace All, as the editor has it *)

Section ReplaceAllEffect.

Variable pat : utf8_text.
Variable repl : std_string.

Lemma firstn_of_longer (A : Type) (i j : nat) (l l' : list A) :
  i <= j -> firstn j l = firstn j l' -> firstn i l = firstn i l'.
Proof.
intros Hij H.
rewrite <- (Nat.min_l i j Hij), <- !firstn_firstn. now rewrite H.
Qed.

(** What one turn of the loop leaves: the text up to the match, the
    replacement, the text behind the match; and the iterator behind the
    replacement, inside the buffer. *)
Lemma replace_step_text (b : TextBuffer) (iter mstart mend : nat) :
  gtk_source_search_context_forward pat b iter = Some (mstart, mend) ->
  let b1 := fst (gtk_text_buffer_delete b mstart mend) in
  let mstart1 := snd (gtk_text_buffer_delete b mstart mend) in
  let b2 := fst (gtk_text_buffer_insert b1 mstart1 repl) in
  let mstart2 := snd (gtk_text_buffer_insert b1 mstart1 repl) in
  let iter' := gtk_text_iter_forward_chars b2 mstart2 (length repl) in
  text b2 = firstn mstart (text b) ++ utf8_decode repl
              ++ skipn mend (text b) /\
  iter <= mstart /\ mstart <= length (text b) /\
  mstart + length (utf8_decode repl) <= iter' /\
  iter' <= length (text b2).
Proof.
intros Hf. apply forward_some in Hf. destruct Hf as (Hle & -> & Hocc).
apply occurs_at_inside in Hocc. destruct Hocc as (_ & Hpos & Hin).
intros b1 mstart1 b2 mstart2 iter'.
assert (Ht : text b2 = firstn mstart (text b) ++ utf8_decode repl
                         ++ skipn (mstart + length pat) (text b)).
{ unfold b2, b1, mstart1. apply replace_range_text; lia. }
split; [exact Ht|]. split; [exact Hle|]. split; [lia|].
assert (Hl : length (text b2)
             = mstart + length (utf8_decode repl)
               + (length (text b) - (mstart + length pat))).
{ rewrite Ht, !length_app, length_firstn, length_skipn. lia. }
assert (Hm2 : mstart2 = mstart + length (utf8_decode repl)).
{ unfold mstart2, b1, mstart1. simpl. rewrite Nat.min_l by lia.
  reflexivity. }
unfold iter', gtk_text_iter_forward_chars. lia.
Qed.

(** The loop never touches the text in front of its iterator. *)
Lemma replace_all_loop_prefix (fuel : nat) :
  forall (b : TextBuffer) (iter : nat) (count : Z) (b' : TextBuffer)
         (count' : Z),
    replace_all_loop fuel pat repl b iter count = Some (b', count') ->
    firstn iter (text b') = firstn iter (text b).
Proof.
induction fuel as [|fuel IH]; intros b iter count b' count' H;
  [discriminate|].
rewrite replace_all_loop_unfold in H.
destruct (gtk_source_search_context_forward pat b iter)
  as [[mstart mend]|] eqn:Ef.
- pose proof (@replace_step_text b iter mstart mend Ef)
    as (Ht & Hle & Hin & Hlo & Hhi).
  cbv zeta in *. apply IH in H.
  apply (@firstn_of_longer _ iter _ _ _ (Nat.le_trans _ _ _ Hle
           (Nat.le_trans _ _ _ (Nat.le_add_r _ _) Hlo))) in H.
  rewrite H, Ht, firstn_app, length_firstn, Nat.min_l by lia.
  replace (iter - mstart) with 0 by lia. simpl. rewrite app_nil_r.
  rewrite firstn_firstn. now rewrite Nat.min_l by lia.
- now injection H as <- <-.
Qed.

(** The first match is replaced, and stays replaced. *)
Lemma replace_all_first_match (b : TextBuffer) (s t : nat) :
  gtk_source_search_context_forward pat b 0 = Some (s, t) ->
  firstn (s + length (utf8_decode repl)) (text (fst (replace_all pat repl b)))
  = firstn s (text b) ++ utf8_decode repl.
Proof.
intros Ef. pose proof (replace_all_eq pat repl b) as Heq.
destruct (replace_all pat repl b) as [b' c'] eqn:Er. cbn [fst].
rewrite replace_all_loop_unfold, Ef in Heq.
pose proof (@replace_step_text b 0 s t Ef) as (Ht & _ & Hin & Hlo & Hhi).
cbv zeta in *. apply replace_all_loop_prefix in Heq.
apply (@firstn_of_longer _ _ _ _ _ Hlo) in Heq.
rewrite Heq, Ht, app_assoc, firstn_app.
assert (Hl : length (firstn s (text b) ++ utf8_decode repl)
             = s + length (utf8_decode repl))
  by (rewrite length_app, length_firstn; lia).
rewrite Hl, Nat.sub_diag. simpl. rewrite app_nil_r.
rewrite <- Hl at 1. apply firstn_all.
Qed.

(** The first occurrence is what a forward search from the start
    finds. *)
Lemma forward_from_start (b : TextBuffer) (s : nat) :
  occurs_at pat (text b) s = true ->
  (forall j, j < s -> occurs_at pat (text b) j = false) ->
  gtk_source_search_context_forward pat b 0 = Some (s, s + length pat).
Proof.
intros Hs Hfirst.
destruct (gtk_source_search_context_forward pat b 0) as [[s' e']|] eqn:E.
- pose proof (@forward_some pat b 0 s' e' E) as (_ & -> & Hocc).
  destruct (Nat.lt_trichotomy s s') as [Hlt|[<-|Hgt]].
  + rewrite (@forward_first pat b 0 s' _ E s) in Hs by lia. discriminate.
  + reflexivity.
  + rewrite (Hfirst s' Hgt) in Hocc. discriminate.
- rewrite forward_none in E. rewrite E in Hs by lia. discriminate.
Qed.

End ReplaceAllEffect.

(** C5, as the code has it: [search_replace_all] gives nothing back.  It
    leaves the final text in the buffer, and the number of replacements it
    has counted is dropped.  That number is [0], and the editor is left
    exactly as it was, when the search text is empty or occurs nowhere.
    Otherwise the number is positive, the buffer is the one the loop ends
    with and is modified: the text in front of the first occurrence is
    kept, that occurrence is replaced by the replacement, and the text has
    lost [count] times the search text and gained [count] times the
    replacement.  Nothing but the buffer and the modified flag is ever
    changed. *)
Theorem search_replace_all_effect (repl : std_string) (e : Editor) :
  (search_text_ e = []
   \/ (forall i, occurs_at (search_text_ e) (text (buffer_ e)) i = false) ->
   search_replace_all repl e = e /\
   snd (replace_all (search_text_ e) repl (buffer_ e)) = 0%Z) /\
  (forall s,
     occurs_at (search_text_ e) (text (buffer_ e)) s = true ->
     (forall j, j < s ->
        occurs_at (search_text_ e) (text (buffer_ e)) j = false) ->
     (0 < snd (replace_all (search_text_ e) repl (buffer_ e)))%Z /\
     modified_ (search_replace_all repl e) = true /\
     buffer_ (search_replace_all repl e)
       = fst (replace_all (search_text_ e) repl (buffer_ e)) /\
     firstn (s + length (utf8_decode repl))
            (text (buffer_ (search_replace_all repl e)))
       = firstn s (text (buffer_ e)) ++ utf8_decode repl /\
     (Z.of_nat (length (text (buffer_ (search_replace_all repl e))))
        + snd (replace_all (search_text_ e) repl (buffer_ e))
          * Z.of_nat (length (search_text_ e))
      = Z.of_nat (length (text (buffer_ e)))
        + snd (replace_all (search_text_ e) repl (buffer_ e))
          * Z.of_nat (length (utf8_decode repl)))%Z) /\
  current_file_ (search_replace_all repl e) = current_file_ e /\
  search_text_ (search_replace_all repl e) = search_text_ e /\
  file_monitor_ (search_replace_all repl e) = file_monitor_ e /\
  file_mtime_utc_us_ (search_replace_all repl e) = file_mtime_utc_us_ e /\
  suppress_monitor_once_ (search_replace_all repl e)
    = suppress_monitor_once_ e.
Proof.
destruct (replace_all_count_facts (search_text_ e) repl (buffer_ e))
  as (Hnil & Hnone & Hpos & _ & Hlen).
split; [|split].
- intros H.
  assert (Hr : replace_all (search_text_ e) repl (buffer_ e)
               = (buffer_ e, 0%Z))
    by (destruct H as [H|H]; [now apply Hnil|now apply Hnone]).
  unfold search_replace_all. rewrite Hr. split; reflexivity.
- intros s Hs Hfirst.
  assert (Hc : (0 < snd (replace_all (search_text_ e) repl (buffer_ e)))%Z)
    by (apply Hpos; now exists s).
  pose proof (@replace_all_first_match (search_text_ e) repl (buffer_ e) s _
                (@forward_from_start (search_text_ e) (buffer_ e) s Hs
                   Hfirst)) as Hfst.
  unfold search_replace_all.
  destruct (replace_all (search_text_ e) repl (buffer_ e)) as [b c] eqn:Er.
  cbn [fst snd] in *.
  replace (0 <? c)%Z with true by (symmetry; now apply Z.ltb_lt).
  cbn [buffer_ modified_ buffer_changed mark_modified set_buffer].
  repeat split; assumption.
- unfold search_replace_all.
  destruct (replace_all (search_text_ e) repl (buffer_ e)) as [b c].
  destruct (0 <? c)%Z; repeat split.
Qed.

Lemma search_replace_all_effect_witness :
  search_replace_all (lit "x")
    (mkEditor (gtk_text_buffer_set_text (lit "Hello")) [] false
              (utf8_decode (lit "z")) None 0 false false)
  = mkEditor (gtk_text_buffer_set_text (lit "Hello")) [] false
             (utf8_decode (lit "z")) None 0 false false
  /\ firstn 4 (text (buffer_
                       (search_replace_all (lit "LL")
                          (mkEditor (gtk_text_buffer_set_text (lit "Hello"))
                             [] false (utf8_decode (lit "l")) None 0 false
                             false))))
     = utf8_decode (lit "HeLL")
  /\ modified_ (search_replace_all (lit "LL")
                  (mkEditor (gtk_text_buffer_set_text (lit "Hello"))
                     [] false (utf8_decode (lit "l")) None 0 false false))
     = true.
Proof.
split.
- destruct (search_replace_all_effect (lit "x")
              (mkEditor (gtk_text_buffer_set_text (lit "Hello")) [] false
                        (utf8_decode (lit "z")) None 0 false false))
    as (H & _).
  apply H. right. intros i. cbn [search_text_ buffer_].
  destruct (occurs_at (utf8_decode (lit "z"))
              (text (gtk_text_buffer_set_text (lit "Hello"))) i) eqn:E;
    [|reflexivity].
  apply In_occurrences in E. destruct E.
- destruct (search_replace_all_effect (lit "LL")
              (mkEditor (gtk_text_buffer_set_text (lit "Hello")) [] false
                        (utf8_decode (lit "l")) None 0 false false))
    as (_ & H & _).
  assert (Hfirst : forall j, j < 2 ->
            occurs_at (utf8_decode (lit "l"))
              (text (gtk_text_buffer_set_text (lit "Hello"))) j = false).
  { intros j Hj. destruct j as [|[|j]]; [reflexivity|reflexivity|lia]. }
  destruct (H 2 eq_refl Hfirst) as (_ & Hm & _ & Ht & _).
  split; [exact Ht|exact Hm].
Defined.

(** C5, counterexample: what [search_replace_all] leaves does not tell
    the number of replacements.  Taking every ["a"] out of ["ab"] is one
    replacement, out of ["aab"] two, and the editor is the same
    afterwards. *)
Lemma search_replace_all_drops_count :
  search_replace_all []
    (mkEditor (mkBuffer (utf8_decode (lit "ab")) 0 0) [] false
              (utf8_decode (lit "a")) None 0 false false)
  = search_replace_all []
      (mkEditor (mkBuffer (utf8_decode (lit "aab")) 0 0) [] false
                (utf8_decode (lit "a")) None 0 false false)
  /\ snd (replace_all (utf8_decode (lit "a")) []
            (mkBuffer (utf8_decode (lit "ab")) 0 0)) = 1%Z
  /\ snd (replace_all (utf8_decode (lit "a")) []
            (mkBuffer (utf8_decode (lit "aab")) 0 0)) = 2%Z.
Proof. vm_compute. repeat split. Qed.
